(** * Plan progress normalizers, plan store and request adapter

    A shallow embedding of the two TypeScript units of the chat front end
    that carry the data contract with the backend:

    - [components/plan/PlanUI.tsx]: the tool-result normalizers
      ([asRecord], [normalizeStep], [normalizePlan], [normalizeCreateResult],
      [normalizeUpdateResult]) and the plan store ([setPlan], [updateStep]);
    - [lib/data-stream-adapter.ts]: [transformRequestToBackendFormat] and
      [createFetchInterceptor].

    The code runs on untyped JavaScript data, so the embedding starts with
    a model of the values, of the abrupt completions (exceptions) and of
    the few built-ins the two units call. *)

From Stdlib Require Import QArith Qround Ascii.
From stdpp Require Import base option list strings pretty gmap.

Set Warnings "-register-all".

Local Open Scope string_scope.
Local Open Scope list_scope.

(** ** JavaScript data *)

Module JS.

(** Numbers.  A finite number is kept as the rational it denotes; the two
    infinities and NaN are separate.  The two zeros are not told apart
    (no operation of the modelled code distinguishes them). *)
Inductive number : Type :=
  | NaN
  | Infinity (negative : bool)
  | Finite (q : Q).

Definition of_Z (z : Z) : number := Finite (inject_Z z).
Definition of_nat (n : nat) : number := of_Z (Z.of_nat n).

(** [a < b] on numbers: false as soon as one side is NaN. *)
Definition lt (a b : number) : bool :=
  match a, b with
  | NaN, _ | _, NaN => false
  | Infinity true, Infinity true => false
  | Infinity true, _ => true
  | _, Infinity true => false
  | Infinity false, _ => false
  | Finite _, Infinity false => true
  | Finite p, Finite q => negb (Qle_bool q p)
  end.

(** [a >= b] on numbers: false as soon as one side is NaN. *)
Definition ge (a b : number) : bool :=
  match a, b with
  | NaN, _ | _, NaN => false
  | Infinity false, _ => true
  | _, Infinity true => true
  | Infinity true, _ => false
  | Finite _, Infinity false => false
  | Finite p, Finite q => Qle_bool q p
  end.

(** [a === b] on numbers. *)
Definition num_eq (a b : number) : bool :=
  match a, b with
  | Finite p, Finite q => Qeq_bool p q
  | Infinity s, Infinity t => Bool.eqb s t
  | _, _ => false
  end.

(** [Number.isFinite]. *)
Definition isFinite (n : number) : bool :=
  match n with Finite _ => true | _ => false end.

(** Whether a number is a mathematical integer. *)
Definition is_integer (n : number) : bool :=
  match n with
  | Finite q => Qeq_bool q (inject_Z (Qfloor q))
  | _ => false
  end.

(** Values: the data that JSON text and plain object literals denote,
    plus [undefined].  An object is the list of its own enumerable
    properties in enumeration order.  Text is kept as the bytes of its
    UTF-8 encoding: an ASCII character is one byte, any other character
    two to four. *)
Inductive value : Type :=
  | VUndefined
  | VNull
  | VBool (b : bool)
  | VNum (n : number)
  | VStr (s : string)
  | VArr (elems : list value)
  | VObj (props : list (string * value)).

(** Completions: a computation either returns or throws. *)
Inductive error : Type := TypeError | SyntaxError.

Inductive completion (A : Type) : Type :=
  | Normal (a : A)
  | Throw (e : error).
Arguments Normal {A} a.
Arguments Throw {A} e.

#[global] Instance completion_ret : MRet completion := fun A a => Normal a.
#[global] Instance completion_bind : MBind completion := fun A B f c =>
  match c with
  | Normal a => f a
  | Throw e => Throw e
  end.

(** [try { c } catch (error) { h }] *)
Definition try_catch {A} (c : completion A) (h : error -> completion A)
  : completion A :=
  match c with
  | Normal a => Normal a
  | Throw e => h e
  end.

(** Truthiness ([ToBoolean]). *)
Definition truthy (v : value) : bool :=
  match v with
  | VUndefined | VNull => false
  | VBool b => b
  | VNum NaN => false
  | VNum (Finite q) => negb (Qeq_bool q 0)
  | VNum (Infinity _) => true
  | VStr s => negb (String.eqb s "")
  | VArr _ | VObj _ => true
  end.

(** [a || b] and [a ?? b] on already evaluated operands. *)
Definition or_else (a b : value) : value := if truthy a then a else b.

Definition nullish (v : value) : bool :=
  match v with VUndefined | VNull => true | _ => false end.

Definition coalesce (a b : value) : value := if nullish a then b else a.

(** [v === "lit"] for a string literal. *)
Definition is_string_lit (v : value) (lit : string) : bool :=
  match v with VStr s => String.eqb s lit | _ => false end.

(** Own property lookup in a property list. *)
Fixpoint lookup_prop (k : string) (props : list (string * value)) : option value :=
  match props with
  | [] => None
  | (k', v) :: rest => if String.eqb k k' then Some v else lookup_prop k rest
  end.

(** [v.k] for one of the data property names the modelled code reads
    ([messages], [tools], [role], [content], [type], [text], [name],
    [description], [parameters], [steps], [plan], [index], [status]).
    Reading from [undefined] or [null] throws; no prototype defines any of
    these names, so arrays and primitives answer [undefined]. *)
Definition get (v : value) (k : string) : completion value :=
  match v with
  | VUndefined | VNull => Throw TypeError
  | VObj props => Normal (default VUndefined (lookup_prop k props))
  | _ => Normal VUndefined
  end.

(** [v?.k] *)
Definition get_opt (v : value) (k : string) : completion value :=
  if nullish v then Normal VUndefined else get v k.

(** [for (const x of l) { s = body(s, x) }] over the elements [l], the
    variables the body assigns being threaded as [s]. *)
Fixpoint for_of {A S : Type} (body : S -> A -> completion S) (l : list A) (s : S)
  : completion S :=
  match l with
  | [] => Normal s
  | x :: rest => s' ← body s x; for_of body rest s'
  end.

(** [l.map(f)] and [l.filter(f)] with callbacks that may throw. *)
Fixpoint array_map {A B : Type} (f : A -> completion B) (l : list A)
  : completion (list B) :=
  match l with
  | [] => Normal []
  | x :: rest => y ← f x; ys ← array_map f rest; Normal (y :: ys)
  end.

Fixpoint array_filter {A : Type} (f : A -> completion bool) (l : list A)
  : completion (list A) :=
  match l with
  | [] => Normal []
  | x :: rest =>
      keep ← f x; ys ← array_filter f rest;
      Normal (if keep : bool then x :: ys else ys)
  end.

(** Whether a byte continues a character ([10xxxxxx]). *)
Definition is_continuation (c : ascii) : bool :=
  let n := nat_of_ascii c in Nat.leb 128 n && Nat.leb n 191.

(** The bytes at the head of a text that continue a character, and the
    characters after them: each byte that starts a character, with the
    bytes that continue it. *)
Fixpoint split_characters (s : string) : string * list string :=
  match s with
  | EmptyString => (EmptyString, [])
  | String c rest =>
      let '(continuation, chars) := split_characters rest in
      if is_continuation c then (String c continuation, chars)
      else (EmptyString, String c continuation :: chars)
  end.

(** The characters (code points) of a text. *)
Definition characters (s : string) : list string :=
  let '(continuation, chars) := split_characters s in
  match continuation with
  | EmptyString => chars
  | _ => continuation :: chars
  end.

(** The elements a [for ... of] loop visits: those of an array, the
    characters of a string; any other value is not iterable. *)
Definition iterate (v : value) : completion (list value) :=
  match v with
  | VArr l => Normal l
  | VStr s => Normal (VStr <$> characters s)
  | _ => Throw TypeError
  end.

(** [hay.includes(needle)] on strings. *)
Fixpoint includes (needle hay : string) : bool :=
  String.prefix needle hay
  || match hay with
     | String _ rest => includes needle rest
     | EmptyString => false
     end.

(** The platform functions the code calls and that are no part of it:
    the JSON parser and printer, and the printing of numbers. *)
Class Host : Type := {
  JSON_parse : string -> completion value;
  JSON_stringify : value -> string;
  Number_toString : number -> string;
}.

(** A JSON text that denotes a string is a quoted literal, so the string
    it denotes is shorter than the text.  Every conforming parser has this
    property; it bounds the recursion of [asRecord]. *)
Definition strings_shrink (H : Host) : Prop :=
  forall s t, JSON_parse s = Normal (VStr t) -> String.length t < String.length s.

Section Conversions.
Context `{Host}.

(** [String(v)].  An array prints its elements separated by commas, an
    absent element as the empty text.  A plain object prints as
    ["[object Object]"] through the inherited [toString]; an own
    [toString] property of a data object is no function, and the
    conversion to a primitive then fails with a [TypeError]. *)
Fixpoint ToString (v : value) : completion string :=
  match v with
  | VUndefined => Normal "undefined"
  | VNull => Normal "null"
  | VBool true => Normal "true"
  | VBool false => Normal "false"
  | VNum n => Normal (Number_toString n)
  | VStr s => Normal s
  | VArr elems =>
      parts ← (fix each (l : list value) : completion (list string) :=
                 match l with
                 | [] => Normal []
                 | e :: rest =>
                     p ← (if nullish e then Normal "" else ToString e);
                     ps ← each rest;
                     Normal (p :: ps)
                 end) elems;
      Normal (String.concat "," parts)
  | VObj props =>
      match lookup_prop "toString" props with
      | Some _ => Throw TypeError
      | None => Normal "[object Object]"
      end
  end.

(** [Array.prototype.join] on the elements of an array. *)
Fixpoint join_parts (l : list value) : completion (list string) :=
  match l with
  | [] => Normal []
  | e :: rest =>
      p ← (if nullish e then Normal "" else ToString e);
      ps ← join_parts rest;
      Normal (p :: ps)
  end.

Definition join (sep : string) (l : list value) : completion string :=
  parts ← join_parts l; Normal (String.concat sep parts).
End Conversions.

(** *** [Number.parseInt(text, 10)]

    Leading white space is skipped, then an optional sign is read, then
    the longest run of decimal digits; the result is NaN when there is no
    digit, and otherwise the number nearest to the integer read.

    The white space of the language is the characters [WhiteSpace] and
    [LineTerminator]: U+0009 to U+000D, U+0020, U+00A0, U+1680, U+2000 to
    U+200A, U+2028, U+2029, U+202F, U+205F, U+3000 and U+FEFF. *)

Definition white_space_code_points : list N :=
  [0x9; 0xA; 0xB; 0xC; 0xD; 0x20; 0xA0; 0x1680;
   0x2000; 0x2001; 0x2002; 0x2003; 0x2004; 0x2005; 0x2006; 0x2007;
   0x2008; 0x2009; 0x200A; 0x2028; 0x2029; 0x202F; 0x205F; 0x3000; 0xFEFF]%N.

(** The UTF-8 encoding of a character. *)
Definition utf8 (cp : N) : string :=
  let byte (n : N) := ascii_of_N n in
  let continuation (n : N) := byte (128 + N.land n 63)%N in
  if (cp <? 0x80)%N then String (byte cp) EmptyString
  else if (cp <? 0x800)%N then
    String (byte (192 + N.shiftr cp 6)%N) (String (continuation cp) EmptyString)
  else if (cp <? 0x10000)%N then
    String (byte (224 + N.shiftr cp 12)%N)
      (String (continuation (N.shiftr cp 6)) (String (continuation cp) EmptyString))
  else
    String (byte (240 + N.shiftr cp 18)%N)
      (String (continuation (N.shiftr cp 12))
         (String (continuation (N.shiftr cp 6)) (String (continuation cp) EmptyString))).

(** White space of one byte: U+0009 to U+000D and U+0020. *)
Definition is_space (c : ascii) : bool :=
  let n := nat_of_ascii c in
  Nat.eqb n 32 || (Nat.leb 9 n && Nat.leb n 13).

(** White space of two bytes: U+00A0. *)
Definition is_space2 (c1 c2 : ascii) : bool :=
  Nat.eqb (nat_of_ascii c1) 194 && Nat.eqb (nat_of_ascii c2) 160.

(** White space of three bytes: U+1680; U+2000 to U+200A, U+2028, U+2029
    and U+202F; U+205F; U+3000; U+FEFF. *)
Definition is_space3 (c1 c2 c3 : ascii) : bool :=
  let n1 := nat_of_ascii c1 in
  let n2 := nat_of_ascii c2 in
  let n3 := nat_of_ascii c3 in
  (Nat.eqb n1 225 && Nat.eqb n2 154 && Nat.eqb n3 128)
  || (Nat.eqb n1 226 && Nat.eqb n2 128
      && ((Nat.leb 128 n3 && Nat.leb n3 138)
          || Nat.eqb n3 168 || Nat.eqb n3 169 || Nat.eqb n3 175))
  || (Nat.eqb n1 226 && Nat.eqb n2 129 && Nat.eqb n3 159)
  || (Nat.eqb n1 227 && Nat.eqb n2 128 && Nat.eqb n3 128)
  || (Nat.eqb n1 239 && Nat.eqb n2 187 && Nat.eqb n3 191).

Definition digit_of (c : ascii) : option Z :=
  let n := Z.of_nat (nat_of_ascii c) in
  if Z.leb 48 n && Z.leb n 57 then Some (n - 48)%Z else None.

Fixpoint skip_spaces (s : string) : string :=
  match s with
  | String c1 rest1 =>
      if is_space c1 then skip_spaces rest1
      else
        match rest1 with
        | String c2 rest2 =>
            if is_space2 c1 c2 then skip_spaces rest2
            else
              match rest2 with
              | String c3 rest3 =>
                  if is_space3 c1 c2 c3 then skip_spaces rest3 else s
              | EmptyString => s
              end
        | EmptyString => s
        end
  | EmptyString => s
  end.

(** The value of the longest prefix of decimal digits; [None] when the
    text starts with no digit. *)
Fixpoint digits_prefix (acc : option Z) (s : string) : option Z :=
  match s with
  | String c rest =>
      match digit_of c with
      | Some d => digits_prefix (Some (10 * default 0%Z acc + d)%Z) rest
      | None => acc
      end
  | EmptyString => acc
  end.

(** The number (a binary64 float) nearest to a non-negative integer, ties
    to the even significand; from [2^1024 - 2^970] on it is infinite. *)
Definition nearest_double (m : Z) : option Z :=
  if Z.ltb m (2 ^ 53) then Some m
  else
    let e := (Z.log2 m - 52)%Z in
    let q := Z.shiftr m e in
    let r := (m - Z.shiftl q e)%Z in
    let half := Z.shiftl 1 (e - 1) in
    let q' := if Z.ltb half r || (Z.eqb r half && Z.odd q) then (q + 1)%Z else q in
    let m' := Z.shiftl q' e in
    if Z.ltb m' (2 ^ 1024) then Some m' else None.

Definition parseInt10 (s : string) : number :=
  let t := skip_spaces s in
  let '(negative, body) :=
    match t with
    | String "-"%char rest => (true, rest)
    | String "+"%char rest => (false, rest)
    | _ => (false, t)
    end in
  match digits_prefix None body with
  | None => NaN
  | Some m =>
      match nearest_double m with
      | Some d => of_Z (if negative then - d else d)
      | None => Infinity negative
      end
  end.

End JS.

(** ** The plan tool UI: [components/plan/PlanUI.tsx] *)

Module PlanUI.
Import JS.

Inductive StepStatus : Type := pending | completed.

Record PlanStep : Type := { description : string; status : StepStatus }.

Record Plan : Type := { steps : list PlanStep }.

(** [{ index: number; description?: string; status?: StepStatus }] *)
Record UpdatePlanResult : Type := {
  index : number;
  upd_description : option string;
  upd_status : option StepStatus;
}.

(** *** The plan store

    The state of [PlanProvider] is a reference to a plan object, or
    [null].  The updater of [updateStep] either hands back the object it
    was given or builds new ones, and React tells the two apart by
    identity; so every object of the store carries the identity it was
    allocated with. *)
Definition ref : Type := nat.

Record StepObj : Type := { step_ref : ref; step : PlanStep }.

Record PlanObj : Type := {
  plan_ref : ref;            (* the [{ steps }] object *)
  steps_ref : ref;           (* its array *)
  plan_steps : list StepObj;
}.

Record PlanState : Type := {
  plan : option PlanObj;     (* [useState<Plan | null>(null)] *)
  next_ref : ref;            (* the next identity to hand out *)
}.

Definition initial : PlanState := {| plan := None; next_ref := 0 |}.

(** The plan a plan object denotes, identities forgotten. *)
Definition plan_of (p : PlanObj) : Plan := {| steps := step <$> plan_steps p |}.

(** [setPlan(p)] with a plan value (or [null]): the state refers to that
    object from then on. *)
Definition setPlan (p : option Plan) (σ : PlanState) : PlanState :=
  match p with
  | None => {| plan := None; next_ref := next_ref σ |}
  | Some p =>
      let base := next_ref σ in
      {| plan := Some {| plan_ref := base;
                         steps_ref := S base;
                         plan_steps :=
                           imap (fun i s => {| step_ref := S (S base) + i; step := s |})
                                (steps p) |};
         next_ref := S (S base) + length (steps p) |}
  end.

(** [updateStep(update)], that is [setPlan((prev) => ...)]. *)
Definition updateStep (update : UpdatePlanResult) (σ : PlanState) : PlanState :=
  match plan σ with
  | None => σ
  | Some prev =>
      if lt (index update) (of_nat 0)
         || ge (index update) (of_nat (length (plan_steps prev)))
      then σ
      else
        let base := next_ref σ in
        {| plan := Some {|
             plan_ref := base;
             steps_ref := S base;
             plan_steps :=
               imap (fun idx st =>
                       if negb (num_eq (of_nat idx) (index update)) then st
                       else {| step_ref := S (S base);
                               step := {|
                                 description :=
                                   default (description (step st)) (upd_description update);
                                 status :=
                                   default (status (step st)) (upd_status update) |} |})
                    (plan_steps prev) |};
           next_ref := S (S (S base)) |}
  end.

(** *** The normalizers *)

Section Normalizers.
Context `{Host}.

(** [asRecord] calls itself on what [JSON.parse] returns.  The length of
    the text bounds the number of calls: under [strings_shrink] the bound
    [call_bound] is never exhausted ([PlanFacts.asRecord_fuel_enough]).
    The [try] encloses the parse and the recursive call. *)
Fixpoint asRecord_fuel (fuel : nat) (v : value) : completion (option value) :=
  match v with
  | VStr s =>
      match fuel with
      | 0 => Normal None
      | S fuel' =>
          try_catch
            (parsed ← JSON_parse s; asRecord_fuel fuel' parsed)
            (fun _ => Normal None)
      end
  | VArr _ | VObj _ => Normal (Some v)
  | _ => Normal None
  end.

Definition call_bound (v : value) : nat :=
  match v with VStr s => S (String.length s) | _ => 0 end.

Definition asRecord (v : value) : completion (option value) :=
  asRecord_fuel (call_bound v) v.

Definition normalizeStep (v : value) : completion (option PlanStep) :=
  record ← asRecord v;
  match record with
  | None => Normal None
  | Some record =>
      d ← get record "description";
      let description := match d with VStr s => Some s | _ => None end in
      st ← get record "status";
      let status := if is_string_lit st "completed" then completed else pending in
      match description with
      | None | Some "" => Normal None
      | Some description => Normal (Some {| description := description; status := status |})
      end
  end.

Definition normalizePlan (v : value) : completion (option Plan) :=
  record ← asRecord v;
  match record with
  | None => Normal None
  | Some record =>
      s ← get record "steps";
      let stepsSource := match s with VArr l => l | _ => [] end in
      if Nat.eqb (length stepsSource) 0 then Normal None
      else
        steps ← for_of
                  (fun steps step =>
                     normalized ← normalizeStep step;
                     match normalized with
                     | Some n => Normal (steps ++ [n])
                     | None => Normal steps
                     end)
                  stepsSource [];
        if Nat.eqb (length steps) 0 then Normal None
        else Normal (Some {| steps := steps |})
  end.

Definition normalizeCreateResult (v : value) : completion (option Plan) :=
  record ← asRecord v;
  match record with
  | None => Normal None
  | Some record =>
      p ← get record "plan";
      if truthy p then normalizePlan p else normalizePlan record
  end.

(** [typeof indexRaw === "number" ? indexRaw
      : Number.parseInt(String(indexRaw ?? "-1"), 10)] *)
Definition index_of (indexRaw : value) : completion number :=
  match indexRaw with
  | VNum n => Normal n
  | _ => text ← ToString (coalesce indexRaw (VStr "-1")); Normal (parseInt10 text)
  end.

Definition normalizeUpdateResult (v : value) : completion (option UpdatePlanResult) :=
  record ← asRecord v;
  match record with
  | None => Normal None
  | Some record =>
      indexRaw ← get record "index";
      index ← index_of indexRaw;
      if negb (isFinite index) || lt index (of_nat 0) then Normal None
      else
        d ← get record "description";
        st ← get record "status";
        Normal (Some {|
          index := index;
          upd_description := match d with VStr s => Some s | _ => None end;
          upd_status :=
            if is_string_lit st "completed" then Some completed
            else if is_string_lit st "pending" then Some pending
            else None |})
  end.

(** The effect of [CreatePlanToolUI] on a tool result. *)
Definition create_plan_effect (result : value) (σ : PlanState) : completion PlanState :=
  normalized ← normalizeCreateResult result;
  match normalized with
  | Some p => Normal (setPlan (Some p) σ)
  | None => Normal σ
  end.

(** The effect of [UpdatePlanToolUI] on a tool result. *)
Definition update_plan_step_effect (result : value) (σ : PlanState)
  : completion PlanState :=
  normalized ← normalizeUpdateResult result;
  match normalized with
  | Some u => Normal (updateStep u σ)
  | None => Normal σ
  end.
End Normalizers.

End PlanUI.

(** ** Vocabulary of the statements about the plan tool UI *)

Module PlanSpec.
Import JS PlanUI.

(** [typeof v === "object" && v !== null] *)
Definition is_record (v : value) : bool :=
  match v with VArr _ | VObj _ => true | _ => false end.

(** An index below zero or not below [n], read in the rationals. *)
Definition out_of_range (idx : number) (n : nat) : Prop :=
  match idx with
  | Finite q => (q < 0)%Q \/ (inject_Z (Z.of_nat n) <= q)%Q
  | Infinity _ => True
  | NaN => False
  end.

(** An index in [[0, n)]. *)
Definition in_range (idx : number) (n : nat) : Prop :=
  match idx with
  | Finite q => (0 <= q)%Q /\ (q < inject_Z (Z.of_nat n))%Q
  | _ => False
  end.

(** A number below zero. *)
Definition negative (idx : number) : Prop :=
  match idx with
  | Finite q => (q < 0)%Q
  | Infinity b => b = true
  | NaN => False
  end.

(** The text of a status. *)
Definition status_text (s : StepStatus) : string :=
  match s with pending => "pending" | completed => "completed" end.

(** [stringified n x v]: [x] is [v] under [n] levels of JSON text. *)
Inductive stringified `{Host} : nat -> value -> value -> Prop :=
  | stringified_0 v : stringified 0 v v
  | stringified_S n s w v :
      JSON_parse s = Normal w -> stringified n w v -> stringified (S n) (VStr s) v.

(** The entries of a [steps] array that [normalizeStep] accepts, in the
    order of the array. *)
Definition surviving_steps `{Host} (l : list value) : list PlanStep :=
  omap (fun e => match normalizeStep e with Normal r => r | Throw _ => None end) l.

End PlanSpec.

(** ** The request adapter: [lib/data-stream-adapter.ts] *)

Module DataStreamAdapter.
Import JS.

(** [BackendChatRequest] and its parts.  The fields the code copies from
    untyped input stay values. *)
Record BackendTool : Type := {
  name : value;
  description : value;
  parameters : value;
}.

Record BackendMessage : Type := {
  role : value;
  content : list value;
}.

Record BackendChatRequest : Type := {
  system : string;
  tools : list BackendTool;
  messages : list BackendMessage;
}.

Section Transform.
Context `{Host}.

(** [msg.content?.filter((part) => part.type === "text")
       .map((part) => part.text || "").join("") || ""] *)
Definition system_content (msg : value) : completion string :=
  content ← get msg "content";
  if nullish content then Normal ""
  else
    match content with
    | VArr parts =>
        texts ← array_filter
                  (fun part => ty ← get part "type"; Normal (is_string_lit ty "text"))
                  parts;
        strs ← array_map
                 (fun part => t ← get part "text"; Normal (or_else t (VStr "")))
                 texts;
        join "" strs
    | _ => Throw TypeError
    end.

(** [(msg.content || []).map((part) => ...)] *)
Definition transformed_content (msg : value) : completion (list value) :=
  content ← get msg "content";
  match or_else content (VArr []) with
  | VArr parts =>
      array_map
        (fun part =>
           ty ← get part "type";
           if is_string_lit ty "text" then
             t ← get part "text";
             Normal (VObj [("type", VStr "text"); ("text", or_else t (VStr ""))])
           else Normal part)
        parts
  | _ => Throw TypeError
  end.

(** The body of the loop over the messages; the loop assigns [system]
    and pushes onto [messages]. *)
Definition message_step (st : string * list BackendMessage) (msg : value)
  : completion (string * list BackendMessage) :=
  let '(system, messages) := st in
  r ← get msg "role";
  if is_string_lit r "system" then
    systemContent ← system_content msg;
    if negb (String.eqb systemContent "") then Normal (systemContent, messages)
    else Normal (system, messages)
  else if is_string_lit r "user" || is_string_lit r "assistant" then
    transformedContent ← transformed_content msg;
    Normal (system, messages ++ [{| role := r; content := transformedContent |}])
  else Normal (system, messages).

(** The [tools] of the output, from [request.tools]. *)
Definition transform_tools (tools : value) : completion (list BackendTool) :=
  if truthy tools then
    match tools with
    | VArr l =>
        if Nat.ltb 0 (length l) then
          array_map
            (fun tool =>
               n ← get tool "name";
               d ← get tool "description";
               p ← get tool "parameters";
               Normal {| name := or_else n tool;
                         description := d;
                         parameters := or_else p (VObj []) |})
            l
        else Normal []
    | VObj props =>
        if Nat.ltb 0 (length props) then
          array_map
            (fun '(key, tool) =>
               d ← get_opt tool "description";
               p ← get_opt tool "parameters";
               Normal {| name := VStr key;
                         description := d;
                         parameters := or_else p (VObj []) |})
            props
        else Normal []
    | _ => Normal []
    end
  else Normal [].

Definition transformRequestToBackendFormat
    (request : value) (systemMessage : option string)
  : completion BackendChatRequest :=
  let system := default "" systemMessage in
  msgs ← get request "messages";
  elems ← iterate (or_else msgs (VArr []));
  '(system, messages) ← for_of message_step elems (system, []);
  ts ← get request "tools";
  tools ← transform_tools ts;
  Normal {| system := system; tools := tools; messages := messages |}.

(** The object literal the function returns, as a value. *)
Definition tool_value (t : BackendTool) : value :=
  VObj [("name", name t); ("description", description t);
        ("parameters", parameters t)].

Definition message_value (m : BackendMessage) : value :=
  VObj [("role", role m); ("content", VArr (content m))].

Definition request_value (r : BackendChatRequest) : value :=
  VObj [("system", VStr (system r));
        ("tools", VArr (tool_value <$> tools r));
        ("messages", VArr (message_value <$> messages r))].
End Transform.

(** *** The fetch interceptor *)

(** The part of the fetch interface the interceptor looks at. *)
Module Fetch.
(** [RequestInfo | URL] *)
Inductive Input : Type :=
  | InputString (url : string)
  | InputURL (href : string)
  | InputRequest.

(** [BodyInit]: text, form data, or one of the other host objects
    (blob, buffer, stream, ...). *)
Inductive Body : Type :=
  | BodyText (text : string)
  | BodyFormData
  | BodyOther.

(** A property of a header record: the text of a header or, in a record
    made by spreading an array of pairs, one of the pairs. *)
Inductive HeaderEntry : Type :=
  | Text (text : string)
  | Pair (elems : list string).

(** [HeadersInit]: a plain record, a [Headers] object with the entries it
    holds, or an array of name and value pairs. *)
Inductive Headers : Type :=
  | HeadersRecord (props : gmap string HeaderEntry)
  | HeadersObject (entries : list (string * string))
  | HeadersArray (pairs : list (list string)).

(** [RequestInit] *)
Record Init : Type := {
  method : option string;
  body : option Body;
  headers : option Headers;
}.
End Fetch.

(** A function that can sit in [window.fetch]: one made by
    [createFetchInterceptor], which closes over its arguments and over the
    function it replaced, or any other one.  Two closures made by two calls
    are two functions, hence the identity. *)
Inductive FetchFn : Type :=
  | Foreign (id : nat)
  | Interceptor (id : nat) (apiEndpoint : string) (headers : gmap string string)
                (systemMessage : option string) (originalFetch : FetchFn).

Record Window : Type := {
  fetch : FetchFn;
  closures : nat;   (* closures made so far *)
}.

(** [{ ...target, ...source }] on records. *)
Definition spread {A : Type} (target source : gmap string A) : gmap string A :=
  source ∪ target.

(** What [...(h || {})] copies from the headers [h] of a call: the own
    enumerable properties.  A plain record has its headers as properties.
    A [Headers] object keeps its entries inside and has no such property.
    An array has its elements, under their positions as keys. *)
Definition own_properties (h : option Fetch.Headers) : gmap string Fetch.HeaderEntry :=
  match h with
  | Some (Fetch.HeadersRecord props) => props
  | Some (Fetch.HeadersObject _) => ∅
  | Some (Fetch.HeadersArray pairs) =>
      list_to_map (imap (fun i pair => (pretty i, Fetch.Pair pair)) pairs)
  | None => ∅
  end.

Section Interceptor.
Context `{Host}.

(** [{ "Content-Type": "application/json", ...headers, ...(init?.headers || {}) }] *)
Definition merged_headers (headers : gmap string string) (init : Fetch.Init)
  : gmap string Fetch.HeaderEntry :=
  spread (spread {[ "Content-Type" := Fetch.Text "application/json" ]}
                 (Fetch.Text <$> headers))
         (own_properties (Fetch.headers init)).

(** The body the [try] block parses; [None] stands for the early return
    on form data.  A host object that is no form data has none of the
    properties the transform reads, like the empty object. *)
Definition original_body (b : option Fetch.Body) : completion (option value) :=
  match b with
  | None | Some (Fetch.BodyText "") => Normal (Some (VObj []))
  | Some (Fetch.BodyText text) => v ← JSON_parse text; Normal (Some v)
  | Some Fetch.BodyFormData => Normal None
  | Some Fetch.BodyOther => Normal (Some (VObj []))
  end.

(** The [try] block of the wrapper: the [init] it passes on. *)
Definition try_block (headers : gmap string string) (systemMessage : option string)
    (init : Fetch.Init) : completion Fetch.Init :=
  originalBody ← original_body (Fetch.body init);
  match originalBody with
  | None => Normal init
  | Some originalBody =>
      transformedBody ← transformRequestToBackendFormat originalBody systemMessage;
      Normal {| Fetch.method := Fetch.method init;
                Fetch.body :=
                  Some (Fetch.BodyText (JSON_stringify (request_value transformedBody)));
                Fetch.headers := Some (Fetch.HeadersRecord (merged_headers headers init)) |}
  end.

(** [typeof input === "string" ? input
      : input instanceof URL ? input.toString() : ""] *)
Definition url_of (input : Fetch.Input) : string :=
  match input with
  | Fetch.InputString url => url
  | Fetch.InputURL href => href
  | Fetch.InputRequest => ""
  end.

(** The function installed in [window.fetch]: the [init] with which it
    calls [originalFetch] (the [input] goes through untouched). *)
Definition intercept (apiEndpoint : string) (headers : gmap string string)
    (systemMessage : option string)
    (input : Fetch.Input) (init : option Fetch.Init) : option Fetch.Init :=
  let url := url_of input in
  match init with
  | Some i =>
      if bool_decide (Fetch.method i = Some "POST") && includes apiEndpoint url then
        match try_block headers systemMessage i with
        | Normal newInit => Some newInit
        | Throw _ =>
            Some {| Fetch.method := Fetch.method i;
                    Fetch.body := Fetch.body i;
                    Fetch.headers := Some (Fetch.HeadersRecord (merged_headers headers i)) |}
        end
      else init
  | None => init
  end.

(** Calling a fetch function: the foreign function reached in the end,
    and the [init] it receives. *)
Fixpoint call (f : FetchFn) (input : Fetch.Input) (init : option Fetch.Init)
  : nat * option Fetch.Init :=
  match f with
  | Foreign id => (id, init)
  | Interceptor _ apiEndpoint headers systemMessage originalFetch =>
      call originalFetch input (intercept apiEndpoint headers systemMessage input init)
  end.
End Interceptor.

(** [createFetchInterceptor]: the window after the installation and the
    cleanup function; [headers] defaults to the empty record. *)
Definition createFetchInterceptor (apiEndpoint : string)
    (headers : option (gmap string string)) (systemMessage : option string)
    (w : Window) : Window * (Window -> Window) :=
  let originalFetch := fetch w in
  ({| fetch := Interceptor (closures w) apiEndpoint (default ∅ headers)
                           systemMessage originalFetch;
      closures := S (closures w) |},
   fun w' => {| fetch := originalFetch; closures := closures w' |}).

End DataStreamAdapter.

(** ** Vocabulary of the statements about the adapter *)

Module AdapterSpec.
Import JS DataStreamAdapter.

(** The property [k] of a value that is not [undefined] or [null]. *)
Definition field (v : value) (k : string) : value :=
  match v with
  | VObj props => default VUndefined (lookup_prop k props)
  | _ => VUndefined
  end.

Definition is_object (v : value) : bool :=
  match v with VObj _ => true | _ => false end.

Definition text_typed (part : value) : bool :=
  is_string_lit (field part "type") "text".

(** The inputs of the interface [AssistantUIRequest]: a request is an
    object whose [messages], when present, are objects whose [content],
    when present, is an array of objects, the [text] of a text part being
    text when present; a [tools] array holds no [null] or [undefined]. *)
Definition part_ok (part : value) : bool :=
  is_object part
  && (negb (text_typed part)
      || match field part "text" with VStr _ | VUndefined => true | _ => false end).

Definition message_ok (msg : value) : bool :=
  is_object msg
  && match field msg "content" with
     | VUndefined | VNull => true
     | VArr parts => forallb part_ok parts
     | _ => false
     end.

Definition tools_ok (tools : value) : bool :=
  match tools with
  | VArr l => forallb (fun tool => negb (nullish tool)) l
  | _ => true
  end.

Definition request_ok (request : value) : bool :=
  is_object request
  && match field request "messages" with
     | VUndefined | VNull => true
     | VArr msgs => forallb message_ok msgs
     | _ => false
     end
  && tools_ok (field request "tools").

Definition messages_of (request : value) : list value :=
  match field request "messages" with VArr msgs => msgs | _ => [] end.

Definition parts_of (msg : value) : list value :=
  match field msg "content" with VArr parts => parts | _ => [] end.

(** The text of a part, and the concatenated text of the text parts of a
    message. *)
Definition part_text (part : value) : string :=
  match field part "text" with VStr s => s | _ => "" end.

Definition message_text (msg : value) : string :=
  String.concat "" (part_text <$> filter (fun part => text_typed part = true) (parts_of msg)).

Definition has_role (r : string) (msg : value) : bool :=
  is_string_lit (field msg "role") r.

(** The non-empty texts of the system messages, in input order. *)
Definition system_texts (msgs : list value) : list string :=
  filter (fun t => t <> "")
         (message_text <$> filter (fun msg => has_role "system" msg = true) msgs).

Definition expected_system (msgs : list value) (systemMessage : option string) : string :=
  default (default "" systemMessage) (last (system_texts msgs)).

(** A text part is rebuilt from its type and text; any other part goes
    through. *)
Definition rewritten_part (part : value) : value :=
  if text_typed part
  then VObj [("type", VStr "text"); ("text", or_else (field part "text") (VStr ""))]
  else part.

Definition expected_message (msg : value) : BackendMessage :=
  {| role := field msg "role"; content := rewritten_part <$> parts_of msg |}.

Definition expected_messages (msgs : list value) : list BackendMessage :=
  expected_message
    <$> filter (fun msg => has_role "user" msg || has_role "assistant" msg = true) msgs.

Definition tool_of_entry (tool : value) : BackendTool :=
  {| name := or_else (field tool "name") tool;
     description := field tool "description";
     parameters := or_else (field tool "parameters") (VObj []) |}.

Definition tool_of_pair (entry : string * value) : BackendTool :=
  {| name := VStr entry.1;
     description := field entry.2 "description";
     parameters := or_else (field entry.2 "parameters") (VObj []) |}.

Definition expected_tools (tools : value) : list BackendTool :=
  match tools with
  | VArr l => tool_of_entry <$> l
  | VObj props => tool_of_pair <$> props
  | _ => []
  end.

End AdapterSpec.

(** ** A host to run the examples on

    A parser and a printer for the fragment of JSON the examples use.
    Where [parse] returns, it returns what [JSON.parse] returns; outside
    the fragment it throws. *)

Module SampleHost.
Import JS.

Definition dquote : ascii := ascii_of_nat 34.
Definition backslash : ascii := ascii_of_nat 92.

(** The characters of a string literal after the opening quote, up to the
    closing quote, which must end the text.  Of the escapes only the
    quote and the backslash are read. *)
Fixpoint literal_chars (s : string) : option string :=
  match s with
  | EmptyString => None
  | String c rest =>
      if Ascii.eqb c dquote then
        match rest with EmptyString => Some EmptyString | _ => None end
      else if Ascii.eqb c backslash then
        match rest with
        | String c' rest' =>
            if Ascii.eqb c' dquote || Ascii.eqb c' backslash
            then String c' <$> literal_chars rest'
            else None
        | EmptyString => None
        end
      else if Nat.ltb (nat_of_ascii c) 32 then None
      else String c <$> literal_chars rest
  end.

(** A string as a JSON literal. *)
Fixpoint escaped (s : string) : string :=
  match s with
  | String c rest =>
      if Ascii.eqb c dquote || Ascii.eqb c backslash
      then String backslash (String c (escaped rest))
      else String c (escaped rest)
  | EmptyString => EmptyString
  end.

Definition quoted (s : string) : string :=
  String dquote (escaped s +:+ String dquote EmptyString).

(** The object texts of the examples. *)
Definition update_text : string :=
  "{" +:+ quoted "index" +:+ ":" +:+ quoted "2" +:+ ","
      +:+ quoted "status" +:+ ":" +:+ quoted "completed" +:+ "}".

Definition step_text : string :=
  "{" +:+ quoted "description" +:+ ":" +:+ quoted "a" +:+ "}".

Definition parse (s : string) : completion value :=
  match s with
  | String c rest =>
      if Ascii.eqb c dquote then
        match literal_chars rest with
        | Some t => Normal (VStr t)
        | None => Throw SyntaxError
        end
      else if String.eqb s "{}" then Normal (VObj [])
      else if String.eqb s "[]" then Normal (VArr [])
      else if String.eqb s "null" then Normal VNull
      else if String.eqb s update_text then
        Normal (VObj [("index", VStr "2"); ("status", VStr "completed")])
      else if String.eqb s step_text then
        Normal (VObj [("description", VStr "a")])
      else Throw SyntaxError
  | EmptyString => Throw SyntaxError
  end.

(** Integers print in decimal (the platform does so below [10^21]); the
    examples print no other number. *)
Definition print_number (n : number) : string :=
  match n with
  | NaN => "NaN"
  | Infinity false => "Infinity"
  | Infinity true => "-Infinity"
  | Finite q => pretty (Qfloor q)
  end.

(** [JSON.stringify]; [None] where the platform answers [undefined]. *)
Fixpoint print (v : value) : option string :=
  match v with
  | VUndefined => None
  | VNull => Some "null"
  | VBool true => Some "true"
  | VBool false => Some "false"
  | VNum n => Some (if isFinite n then print_number n else "null")
  | VStr s => Some (quoted s)
  | VArr elems =>
      Some ("[" +:+ String.concat ","
              ((fix each (l : list value) : list string :=
                  match l with
                  | [] => []
                  | e :: rest => default "null" (print e) :: each rest
                  end) elems) +:+ "]")
  | VObj props =>
      Some ("{" +:+ String.concat ","
              ((fix each (l : list (string * value)) : list string :=
                  match l with
                  | [] => []
                  | (k, e) :: rest =>
                      match print e with
                      | Some t => (quoted k +:+ ":" +:+ t) :: each rest
                      | None => each rest
                      end
                  end) props) +:+ "}")
  end.

#[export] Instance host : Host := {|
  JSON_parse := parse;
  JSON_stringify := fun v => default "undefined" (print v);
  Number_toString := print_number;
|}.

End SampleHost.

(** ** The plan card: [PlanCard] and the render of [CreatePlanToolUI]
    in [components/plan/PlanUI.tsx]

    What the card shows is kept as data: which of its three layouts it
    takes, the counts, and per listed step its number, the step and the
    two flags that pick its colours.  The state [showCompleted] of the
    component is an argument.  The title and the labels go through
    untouched and are left out, and so is the percentage, which the code
    computes in floating point. *)

Module PlanCardUI.
Import JS PlanUI.

Record Item : Type := {
  number : nat;             (* [index + 1] *)
  item_step : PlanStep;     (* its description and status *)
  isCompleted : bool;
  isCurrent : bool;
}.

Inductive Card : Type :=
  | Waiting                                    (* waiting for plan data *)
  | Complete (listed : option (list string))   (* all steps finished *)
  | Progress (completed total : nat) (items : list Item).

(** [step.status === "completed"] and [step.status === "pending"] *)
Definition is_completed (step : PlanStep) : bool :=
  match status step with completed => true | pending => false end.

Definition is_pending (step : PlanStep) : bool :=
  match status step with pending => true | completed => false end.

(** [l.findIndex(f)]: the first position where [f] holds, or -1. *)
Fixpoint findIndex_from {A : Type} (f : A -> bool) (l : list A) (i : nat) : Z :=
  match l with
  | [] => (-1)%Z
  | x :: rest => if f x then Z.of_nat i else findIndex_from f rest (S i)
  end.

Definition findIndex {A : Type} (f : A -> bool) (l : list A) : Z :=
  findIndex_from f l 0.

Definition PlanCard (plan : option Plan) (emphasizeCurrent showCompleted : bool) : Card :=
  match plan with
  | None => Waiting
  | Some plan =>
      if Nat.eqb (length (steps plan)) 0 then Waiting
      else
        let completed := length (List.filter is_completed (steps plan)) in
        let allComplete := forallb is_completed (steps plan) in
        let firstPending :=
          if emphasizeCurrent then findIndex is_pending (steps plan) else (-1)%Z in
        if allComplete then
          Complete (if showCompleted then Some (description <$> steps plan) else None)
        else
          Progress completed (length (steps plan))
            (imap (fun index step =>
                     {| number := index + 1;
                        item_step := step;
                        isCompleted := is_completed step;
                        isCurrent := emphasizeCurrent
                                     && Z.eqb (Z.of_nat index) firstPending |})
                  (List.filter (fun step => showCompleted || negb (is_completed step))
                               (steps plan)))
  end.

(** The render of [CreatePlanToolUI]: the card of the store's plan, or
    of the result just normalized when the store has none; without a plan
    a note while the call is running, and nothing afterwards. *)
Inductive CreateView : Type :=
  | ShowCard (card : Card)
  | Generating
  | Nothing.

Definition CreatePlanToolUI_render (plan normalized : option Plan)
    (running showCompleted : bool) : CreateView :=
  match (match plan with Some p => Some p | None => normalized end) with
  | Some displayPlan => ShowCard (PlanCard (Some displayPlan) true showCompleted)
  | None => if running then Generating else Nothing
  end.

End PlanCardUI.

(** ** The table tool: [parseResult] of [components/tools/EconDataToolUI.tsx] *)

Module EconDataToolUI.
Import JS.

(** [typeof v === "object"] *)
Definition typeof_object (v : value) : bool :=
  match v with VNull | VArr _ | VObj _ => true | _ => false end.

Section Parse.
Context `{Host}.

(** The rows that are objects, or [null] when there is none.  A string is
    parsed once; what it denotes is not parsed again. *)
Definition parseResult (result : value) : completion (option (list value)) :=
  if nullish result then Normal None
  else
    data ← match result with
           | VStr text =>
               try_catch (parsed ← JSON_parse text; Normal (Some parsed))
                         (fun _ => Normal None)
           | _ => Normal (Some result)
           end;
    match data with
    | None => Normal None
    | Some (VArr rows) =>
        records ← for_of
                    (fun records row =>
                       if truthy row && typeof_object row
                       then Normal (records ++ [row])
                       else Normal records)
                    rows [];
        if Nat.ltb 0 (length records) then Normal (Some records) else Normal None
    | Some _ => Normal None
    end.
End Parse.

End EconDataToolUI.

(** ** Vocabulary of the statements about the store as a whole *)

Module StoreSpec.
Import JS PlanUI.

(** The plan the store holds, identities forgotten. *)
Definition current (σ : PlanState) : option Plan := plan_of <$> plan σ.

(** The step at position [idx] after an update: patched where the position
    equals the index of the update, itself elsewhere. *)
Definition patched (update : UpdatePlanResult) (idx : nat) (s : PlanStep) : PlanStep :=
  if num_eq (of_nat idx) (index update)
  then {| description := default (description s) (upd_description update);
          status := default (status s) (upd_status update) |}
  else s.

End StoreSpec.

(** ** Vocabulary of the statements about the table tool *)

Module EconSpec.
Import JS.

(** The data [parseResult] works on: the result itself, or what its text
    denotes; none for [null], [undefined] and text that is no JSON. *)
Definition data_of `{Host} (result : value) : option value :=
  match result with
  | VUndefined | VNull => None
  | VStr text =>
      match JSON_parse text with Normal parsed => Some parsed | Throw _ => None end
  | _ => Some result
  end.

End EconSpec.

(** ** Messages of a transformed request *)

Module OutputSpec.
Import JS DataStreamAdapter AdapterSpec.

(** A message of the output: a user or assistant message whose parts are
    parts of the output already. *)
Definition settled (m : BackendMessage) : Prop :=
  is_string_lit (role m) "user" || is_string_lit (role m) "assistant" = true /\
  Forall (fun part => part_ok part = true) (content m) /\
  rewritten_part <$> content m = content m.

End OutputSpec.

(** * Facts *)

Module CompletionFacts.
Import JS.

(** [String] of an array is the join of its elements with commas. *)
Lemma ToString_array `{Host} (elems : list value) :
  ToString (VArr elems) = join "," elems.
Proof.
  reflexivity.
Qed.

End CompletionFacts.

Module SampleFacts.
Import JS SampleHost.

Lemma literal_chars_shorter (n : nat) (r t : string) :
  String.length r <= n -> literal_chars r = Some t ->
  String.length t < String.length r.
Proof.
  revert r t. induction n as [|n IH]; intros r t Hn Hl.
  - destruct r; simpl in *; [discriminate | lia].
  - destruct r as [|c rest]; simpl in Hl; [discriminate|].
    destruct (Ascii.eqb c dquote).
    { destruct rest; [|discriminate]. injection Hl as <-. simpl. lia. }
    destruct (Ascii.eqb c backslash).
    { destruct rest as [|c' rest']; [discriminate|].
      destruct (Ascii.eqb c' dquote || Ascii.eqb c' backslash); [|discriminate].
      destruct (literal_chars rest') as [t'|] eqn:Hr; [|discriminate].
      injection Hl as <-. apply IH in Hr; simpl in *; lia. }
    destruct (Nat.ltb (nat_of_ascii c) 32); [discriminate|].
    destruct (literal_chars rest) as [t'|] eqn:Hr; [|discriminate].
    injection Hl as <-. apply IH in Hr; simpl in *; lia.
Qed.

(** The sample parser maps a text to a string only by reading a literal,
    which is longer than the string it denotes. *)
Lemma parse_shrinks : strings_shrink host.
Proof.
  intros s t Hp. simpl in Hp. unfold parse in Hp.
  destruct s as [|c rest]; [discriminate|].
  destruct (Ascii.eqb c dquote).
  - destruct (literal_chars rest) as [t'|] eqn:Hl; [|discriminate].
    injection Hp as <-.
    apply (literal_chars_shorter (String.length rest)) in Hl; simpl; lia.
  - repeat (match type of Hp with
            | (if ?b then _ else _) = _ => destruct b; [discriminate|]
            end).
    discriminate.
Qed.

End SampleFacts.

Module PlanFacts.
Import JS PlanUI PlanSpec CompletionFacts.

Section Resolve.
Context `{Host}.

Lemma asRecord_fuel_returns (fuel : nat) (v : value) :
  asRecord_fuel fuel v = Normal None
  \/ exists r, asRecord_fuel fuel v = Normal (Some r) /\ is_record r = true.
Proof.
  revert v. induction fuel as [|fuel IH]; intros v.
  - destruct v; simpl; eauto.
  - destruct v; simpl; eauto.
    destruct (JSON_parse s) as [parsed|e]; simpl; [|by left].
    destruct (IH parsed) as [-> | (r & -> & Hr)]; simpl; eauto.
Qed.

(** [asRecord] throws nothing, so the handler of its [try] never runs on
    the recursive call. *)
Lemma try_catch_asRecord_fuel (fuel : nat) (v : value) h :
  try_catch (asRecord_fuel fuel v) h = asRecord_fuel fuel v.
Proof. by destruct (asRecord_fuel_returns fuel v) as [-> | (r & -> & _)]. Qed.

Lemma asRecord_returns (v : value) :
  asRecord v = Normal None
  \/ exists r, asRecord v = Normal (Some r) /\ is_record r = true.
Proof. apply asRecord_fuel_returns. Qed.

Lemma asRecord_record (v : value) :
  is_record v = true -> asRecord v = Normal (Some v).
Proof. by destruct v. Qed.

Lemma get_record (r : value) (k : string) :
  is_record r = true -> exists x, get r k = Normal x.
Proof. destruct r; try discriminate; simpl; eauto. Qed.

Lemma asRecord_unparsable (s : string) (e : error) :
  JSON_parse s = Throw e -> asRecord (VStr s) = Normal None.
Proof. intros Hp. unfold asRecord. simpl. by rewrite Hp. Qed.

Lemma normalizeStep_returns (v : value) : exists r, normalizeStep v = Normal r.
Proof.
  unfold normalizeStep.
  destruct (asRecord_returns v) as [-> | (r & -> & Hr)]; simpl; [eauto|].
  destruct r as [| | | | |elems|props]; try discriminate; simpl; [eauto|].
  destruct (default VUndefined (lookup_prop "description" props)) as [| | | |d| |];
    simpl; eauto.
  destruct d; eauto.
Qed.

(** A record with a description that is non-empty text is a step; its
    status is completed only for the status text [completed]. *)
Lemma normalizeStep_accepts (v record : value) (d : string) :
  asRecord v = Normal (Some record) ->
  get record "description" = Normal (VStr d) -> d <> "" ->
  exists st,
    get record "status" = Normal st /\
    normalizeStep v =
      Normal (Some {| description := d;
                      status := if is_string_lit st "completed"
                                then completed else pending |}).
Proof.
  intros Hr Hd Hne. unfold normalizeStep. rewrite Hr. simpl. rewrite Hd. simpl.
  destruct (asRecord_returns v) as [Hn | (r & Hr' & Hrec)]; [congruence|].
  assert (r = record) as -> by congruence.
  destruct (get_record record "status" Hrec) as [st Hst].
  exists st. split; [done|]. rewrite Hst. simpl. by destruct d.
Qed.

(** The loop of [normalizePlan] appends the accepted steps, in order. *)
Lemma normalizePlan_loop (l : list value) (acc : list PlanStep) :
  for_of (fun steps step =>
            normalized ← normalizeStep step;
            match normalized with
            | Some n => Normal (steps ++ [n])
            | None => Normal steps
            end) l acc
  = Normal (acc ++ surviving_steps l).
Proof.
  revert acc. induction l as [|x l IH]; intros acc; simpl.
  - by rewrite app_nil_r.
  - unfold surviving_steps in *. simpl.
    destruct (normalizeStep_returns x) as [[st|] ->]; simpl.
    + rewrite IH. by rewrite <- app_assoc.
    + apply IH.
Qed.

Lemma normalizePlan_record (v record : value) :
  asRecord v = Normal (Some record) ->
  normalizePlan v =
    Normal (match get record "steps" with
            | Normal (VArr l) =>
                match surviving_steps l with
                | [] => None
                | sts => Some {| steps := sts |}
                end
            | _ => None
            end).
Proof.
  intros Hr. unfold normalizePlan. rewrite Hr. simpl.
  destruct (asRecord_returns v) as [Hn | (r & Hr' & Hrec)]; [congruence|].
  assert (r = record) as -> by congruence.
  destruct (get_record record "steps" Hrec) as [x ->]. simpl.
  destruct x as [| | | | |l|]; try done.
  destruct l as [|e l]; [done|].
  change (Nat.eqb (length (e :: l)) 0) with false. cbv iota.
  rewrite normalizePlan_loop.
  generalize (surviving_steps (e :: l)). intros sts. simpl.
  by destruct sts.
Qed.

Lemma surviving_steps_none (l : list value) :
  Forall (fun e => normalizeStep e = Normal None) l -> surviving_steps l = [].
Proof.
  induction 1 as [|e l He _ IH]; [done|].
  unfold surviving_steps in *. simpl. by rewrite He.
Qed.

Lemma surviving_steps_cons (e : value) (l : list value) :
  surviving_steps (e :: l) =
    match normalizeStep e with
    | Normal (Some st) => st :: surviving_steps l
    | _ => surviving_steps l
    end.
Proof.
  unfold surviving_steps. cbn [omap list_omap].
  by destruct (normalizeStep e) as [[st|]|].
Qed.

(** C3.  [normalizeStep] and [normalizePlan] return on every input and
    never throw.  They return [null] on text that is no JSON, on a value
    that resolves to no record, on a record whose [description] is missing,
    no text or empty, on a [steps] field that is absent, no array or empty,
    and on a [steps] array all of whose entries [normalizeStep] rejects.
    A record with a description that is non-empty text is a step.  On a
    record with a [steps] array, [normalizePlan] goes through the entries
    in order, drops those that [normalizeStep] rejects and keeps the steps
    of the others; it returns the plan of the steps kept as soon as there
    is one, and [null] when there is none.  So a plan that it returns has
    at least one step, and its steps are the entries that [normalizeStep]
    accepts, in the order of the input array. *)
Theorem normalizers_reject_malformed :
  (forall v, exists r, normalizeStep v = Normal r) /\
  (forall v, exists r, normalizePlan v = Normal r) /\
  (forall s e, JSON_parse s = Throw e ->
     normalizeStep (VStr s) = Normal None /\ normalizePlan (VStr s) = Normal None) /\
  (forall v, asRecord v = Normal None ->
     normalizeStep v = Normal None /\ normalizePlan v = Normal None) /\
  (forall v record, asRecord v = Normal (Some record) ->
     (forall d, get record "description" = Normal (VStr d) -> d = "") ->
     normalizeStep v = Normal None) /\
  (forall v record d, asRecord v = Normal (Some record) ->
     get record "description" = Normal (VStr d) -> d <> "" ->
     exists st,
       get record "status" = Normal st /\
       normalizeStep v =
         Normal (Some {| description := d;
                         status := if is_string_lit st "completed"
                                   then completed else pending |})) /\
  (forall v record, asRecord v = Normal (Some record) ->
     (forall l, get record "steps" = Normal (VArr l) -> l = []) ->
     normalizePlan v = Normal None) /\
  (forall v record l, asRecord v = Normal (Some record) ->
     get record "steps" = Normal (VArr l) ->
     Forall (fun e => normalizeStep e = Normal None) l ->
     normalizePlan v = Normal None) /\
  (surviving_steps [] = [] /\
   forall e l,
     surviving_steps (e :: l) =
       match normalizeStep e with
       | Normal (Some st) => st :: surviving_steps l
       | _ => surviving_steps l
       end) /\
  (forall v record l, asRecord v = Normal (Some record) ->
     get record "steps" = Normal (VArr l) ->
     normalizePlan v =
       Normal (match surviving_steps l with
               | [] => None
               | kept => Some {| steps := kept |}
               end)) /\
  (forall v p, normalizePlan v = Normal (Some p) <->
     exists record l,
       asRecord v = Normal (Some record) /\
       get record "steps" = Normal (VArr l) /\
       steps p = surviving_steps l /\
       steps p <> []).
Proof.
  split; [apply normalizeStep_returns|].
  split.
  { intros v. destruct (asRecord_returns v) as [Hn | (r & Hr & _)].
    - unfold normalizePlan. rewrite Hn. eauto.
    - rewrite (normalizePlan_record _ _ Hr). eauto. }
  split.
  { intros s e Hp. unfold normalizeStep, normalizePlan.
    by rewrite (asRecord_unparsable _ _ Hp). }
  split.
  { intros v Hn. unfold normalizeStep, normalizePlan. by rewrite Hn. }
  split.
  { intros v record Hr Hd. unfold normalizeStep. rewrite Hr. simpl.
    destruct (asRecord_returns v) as [Hn | (r & Hr' & Hrec)]; [congruence|].
    assert (r = record) as -> by congruence.
    destruct (get_record record "description" Hrec) as [x Hx].
    destruct (get_record record "status" Hrec) as [y Hy].
    rewrite Hx, Hy. simpl.
    destruct x as [| | | |d| |]; try done.
    by rewrite (Hd d Hx). }
  split; [apply normalizeStep_accepts|].
  split.
  { intros v record Hr Hs. rewrite (normalizePlan_record _ _ Hr).
    destruct (get record "steps") as [[| | | | |l|]|]; try done.
    by rewrite (Hs l eq_refl). }
  split.
  { intros v record l Hr Hs Hall. rewrite (normalizePlan_record _ _ Hr), Hs.
    by rewrite (surviving_steps_none _ Hall). }
  split; [split; [reflexivity | apply surviving_steps_cons]|].
  split.
  { intros v record l Hr Hs. by rewrite (normalizePlan_record _ _ Hr), Hs. }
  intros v p. split.
  - intros Hp.
    destruct (asRecord_returns v) as [Hn | (r & Hr & _)].
    { unfold normalizePlan in Hp. rewrite Hn in Hp. discriminate. }
    rewrite (normalizePlan_record _ _ Hr) in Hp.
    destruct (get r "steps") as [[| | | | |l|]|] eqn:Hs; try discriminate.
    destruct (surviving_steps l) as [|st sts] eqn:Hl; [discriminate|].
    injection Hp as <-. exists r, l. by rewrite Hl.
  - intros (record & l & Hr & Hs & Hsteps & Hne).
    rewrite (normalizePlan_record _ _ Hr), Hs, <- Hsteps.
    destruct p as [sts]. cbn in *. by destruct sts.
Qed.

End Resolve.

Section Unwrapping.
Context `{Host}.
Hypothesis Hshrink : strings_shrink _.

(** Enough calls are allowed: any two bounds at least [call_bound v] give
    the same result. *)
Lemma asRecord_fuel_enough (fuel fuel' : nat) (v : value) :
  call_bound v <= fuel -> call_bound v <= fuel' ->
  asRecord_fuel fuel v = asRecord_fuel fuel' v.
Proof.
  revert fuel' v. induction fuel as [|fuel IH]; intros fuel' v Hf Hf'.
  - destruct v; simpl in *; try lia; by destruct fuel'.
  - destruct v; simpl in *; try (by destruct fuel').
    destruct fuel' as [|fuel']; [lia|]. simpl.
    destruct (JSON_parse s) as [parsed|e] eqn:Hp; simpl; [|done].
    f_equal. apply IH; destruct parsed; simpl; try lia;
      apply Hshrink in Hp; lia.
Qed.

Lemma asRecord_string (s : string) (v : value) :
  JSON_parse s = Normal v -> asRecord (VStr s) = asRecord v.
Proof.
  intros Hp. unfold asRecord at 1. simpl. rewrite Hp. simpl.
  rewrite try_catch_asRecord_fuel.
  apply asRecord_fuel_enough; [|done].
  destruct v; simpl; try lia. apply Hshrink in Hp. lia.
Qed.

Lemma asRecord_stringified (n : nat) (x v : value) :
  stringified n x v -> asRecord x = asRecord v.
Proof.
  induction 1 as [|n s w v Hp _ IH]; [done|].
  by rewrite (asRecord_string _ _ Hp).
Qed.

(** C10.  [asRecord] unwraps stringified JSON at every level: on a string
    it answers what it answers on the parsed value, so a value under any
    number of levels of JSON text resolves like the value itself (a
    record to that record), and each normalizer returns on the wrapped
    payload what it returns on the payload. *)
Theorem asRecord_unwraps_every_level :
  (forall s v, JSON_parse s = Normal v -> asRecord (VStr s) = asRecord v) /\
  (forall n x v, stringified n x v ->
     asRecord x = asRecord v /\
     normalizeStep x = normalizeStep v /\
     normalizePlan x = normalizePlan v /\
     normalizeCreateResult x = normalizeCreateResult v /\
     normalizeUpdateResult x = normalizeUpdateResult v) /\
  (forall n x v, stringified n x v -> is_record v = true ->
     asRecord x = Normal (Some v)).
Proof.
  split; [apply asRecord_string|].
  split.
  - intros n x v Hs. apply asRecord_stringified in Hs.
    unfold normalizeStep, normalizePlan, normalizeCreateResult,
      normalizeUpdateResult.
    by rewrite Hs.
  - intros n x v Hs Hv. rewrite (asRecord_stringified _ _ _ Hs).
    by apply asRecord_record.
Qed.

End Unwrapping.

(** A plan update under two levels of JSON text resolves to the object. *)
Lemma asRecord_unwraps_twice :
  strings_shrink SampleHost.host /\
  @asRecord SampleHost.host
    (VStr (SampleHost.quoted SampleHost.update_text))
  = Normal (Some (VObj [("index", VStr "2"); ("status", VStr "completed")])).
Proof.
  split; [exact SampleFacts.parse_shrinks|].
  apply (proj2 (proj2 (asRecord_unwraps_every_level SampleFacts.parse_shrinks)) 2);
    [|reflexivity].
  eapply stringified_S; [vm_compute; reflexivity|].
  eapply stringified_S; [vm_compute; reflexivity|].
  apply stringified_0.
Defined.

Section Store.

Lemma lt_zero (q : Q) : lt (Finite q) (of_nat 0) = true <-> (q < 0)%Q.
Proof.
  simpl. rewrite negb_true_iff, <- not_true_iff_false, Qle_bool_iff.
  split; [apply Qnot_le_lt | apply Qlt_not_le].
Qed.

Lemma ge_length (q : Q) (n : nat) :
  ge (Finite q) (of_nat n) = true <-> (inject_Z (Z.of_nat n) <= q)%Q.
Proof. simpl. apply Qle_bool_iff. Qed.

Lemma num_eq_of_nat (j i : nat) : num_eq (of_nat j) (of_nat i) = bool_decide (j = i).
Proof.
  simpl. destruct (Qeq_bool _ _) eqn:He.
  - apply Qeq_bool_iff in He. rewrite inject_Z_injective in He.
    symmetry. apply bool_decide_eq_true. lia.
  - symmetry. apply bool_decide_eq_false. intros ->.
    apply not_true_iff_false in He. apply He, Qeq_bool_iff. reflexivity.
Qed.

(** The guard of [updateStep], read in the rationals. *)
Lemma guard_out_of_range (idx : number) (n : nat) :
  lt idx (of_nat 0) || ge idx (of_nat n) = true <-> out_of_range idx n.
Proof.
  destruct idx as [|[]|q]; try (simpl; intuition congruence).
  rewrite orb_true_iff, lt_zero, ge_length. reflexivity.
Qed.

Lemma guard_in_range (idx : number) (n : nat) :
  in_range idx n -> lt idx (of_nat 0) || ge idx (of_nat n) = false.
Proof.
  intros Hin. apply not_true_iff_false. rewrite guard_out_of_range.
  destruct idx as [|[]|q]; simpl in *; try done.
  destruct Hin as [H0 Hn]. intros [Hlt | Hge].
  - by apply Qlt_not_le in Hlt.
  - by apply Qlt_not_le in Hn.
Qed.

(** C5.  An update whose index is below zero or not below the number of
    steps, and any update while no plan is set, leaves the store as it
    is: the state after the call is the state before it, the very same
    plan object included, and nothing is allocated. *)
Theorem updateStep_out_of_range_is_noop (update : UpdatePlanResult) (σ : PlanState) :
  (plan σ = None \/
   exists prev, plan σ = Some prev /\
     out_of_range (index update) (length (plan_steps prev))) ->
  updateStep update σ = σ.
Proof.
  intros [Hnone | (prev & Hprev & Hout)]; unfold updateStep.
  - by rewrite Hnone.
  - rewrite Hprev. apply guard_out_of_range in Hout. by rewrite Hout.
Qed.

End Store.

(** A store with the three-step plan of the examples. *)
Lemma updateStep_at_minus_one_and_length :
  let σ := setPlan (Some {| steps := [ {| description := "a"; status := pending |};
                                       {| description := "b"; status := pending |};
                                       {| description := "c"; status := pending |} ] |})
                   initial in
  (exists prev, plan σ = Some prev /\ out_of_range (of_Z (-1)) (length (plan_steps prev)))
  /\ updateStep {| index := of_Z (-1); upd_description := Some "x";
                   upd_status := Some completed |} σ = σ
  /\ updateStep {| index := of_Z 3; upd_description := Some "x";
                   upd_status := Some completed |} σ = σ
  /\ updateStep {| index := of_Z 0; upd_description := Some "x";
                   upd_status := Some completed |} initial = initial.
Proof.
  intros σ. split; [|split; [|split]].
  - eexists. split; [reflexivity|]. left. reflexivity.
  - apply updateStep_out_of_range_is_noop. right.
    eexists. split; [reflexivity|]. left. reflexivity.
  - apply updateStep_out_of_range_is_noop. right.
    eexists. split; [reflexivity|]. right. discriminate.
  - apply updateStep_out_of_range_is_noop. left. reflexivity.
Defined.

Section Patch.
Context `{Host}.

Lemma num_eq_in_range (i n : nat) (idx : number) :
  num_eq (of_nat i) idx = true -> i < n -> in_range idx n.
Proof.
  destruct idx as [| |q]; try discriminate. simpl.
  intros Heq%Qeq_bool_iff Hi. rewrite <- Heq. split.
  - change 0%Q with (inject_Z 0). rewrite <- Zle_Qle. lia.
  - rewrite <- Zlt_Qlt. lia.
Qed.

Lemma num_eq_unique (i j : nat) (idx : number) :
  num_eq (of_nat i) idx = true -> j <> i -> num_eq (of_nat j) idx = false.
Proof.
  destruct idx as [| |q]; try discriminate. simpl.
  intros Hi%Qeq_bool_iff Hji. apply not_true_iff_false.
  intros Hj%Qeq_bool_iff. rewrite <- Hi in Hj.
  rewrite inject_Z_injective in Hj. lia.
Qed.

(** An in-range update builds a new plan object whose steps are those of
    the old one, the step at the index apart. *)
Lemma updateStep_in_range (update : UpdatePlanResult) (σ : PlanState) (prev : PlanObj) :
  plan σ = Some prev ->
  in_range (index update) (length (plan_steps prev)) ->
  exists next,
    plan (updateStep update σ) = Some next /\
    plan_ref next = next_ref σ /\
    length (plan_steps next) = length (plan_steps prev) /\
    forall j st, plan_steps prev !! j = Some st ->
      exists st', plan_steps next !! j = Some st' /\
        if num_eq (of_nat j) (index update) then
          description (step st')
            = default (description (step st)) (upd_description update) /\
          status (step st') = default (status (step st)) (upd_status update)
        else st' = st.
Proof.
  intros Hprev Hin. unfold updateStep. rewrite Hprev.
  rewrite (guard_in_range _ _ Hin). eexists. split; [reflexivity|].
  split; [reflexivity|].
  cbn [plan_steps]. split; [apply length_imap|].
  intros j st Hj. rewrite list_lookup_imap, Hj.
  destruct (num_eq (of_nat j) (index update)); cbn [negb fmap option_fmap option_map];
    eexists; (split; [reflexivity|]); auto.
Qed.

(** C7.  An in-range update yields a new plan object of the same length
    in which a step is changed only where its position equals the index.
    When the index is the integer [i], the step at [i] has its
    description replaced exactly when the update carries one, and its
    status replaced exactly when the update carries one, and every other
    step is the step it was.  In particular the tool result with the
    string index 2 and the status completed, applied through the update
    binding to a plan of three steps, marks the third step completed and
    keeps its description. *)
Theorem updateStep_changes_only_the_indexed_step :
  (forall update σ prev,
     plan σ = Some prev ->
     in_range (index update) (length (plan_steps prev)) ->
     exists next,
       plan (updateStep update σ) = Some next /\
       plan_ref next = next_ref σ /\
       length (plan_steps next) = length (plan_steps prev) /\
       forall j st, plan_steps prev !! j = Some st ->
         num_eq (of_nat j) (index update) = false ->
         plan_steps next !! j = Some st) /\
  (forall update σ prev i,
     plan σ = Some prev ->
     num_eq (of_nat i) (index update) = true ->
     i < length (plan_steps prev) ->
     exists next,
       plan (updateStep update σ) = Some next /\
       length (plan_steps next) = length (plan_steps prev) /\
       (exists st st',
          plan_steps prev !! i = Some st /\ plan_steps next !! i = Some st' /\
          description (step st')
            = match upd_description update with
              | Some d => d
              | None => description (step st)
              end /\
          status (step st')
            = match upd_status update with
              | Some s => s
              | None => status (step st)
              end) /\
       (forall j, j <> i -> plan_steps next !! j = plan_steps prev !! j)) /\
  (forall σ prev a b c,
     plan σ = Some prev ->
     plan_steps prev = [a; b; c] ->
     exists σ' next,
       update_plan_step_effect
         (VObj [("index", VStr "2"); ("status", VStr "completed")]) σ = Normal σ' /\
       plan σ' = Some next /\
       plan_of next =
         {| steps := [step a; step b;
                      {| description := description (step c); status := completed |}] |}).
Proof.
  split; [|split].
  - intros update σ prev Hprev Hin.
    destruct (updateStep_in_range update σ prev Hprev Hin)
      as (next & Hnext & Href & Hlen & Hsteps).
    exists next. split; [done|]. split; [done|]. split; [done|].
    intros j st Hst Hne. destruct (Hsteps j st Hst) as (st' & Hst' & Hsame).
    rewrite Hne in Hsame. by subst.
  - intros update σ prev i Hprev Hidx Hi.
    pose proof (num_eq_in_range _ _ _ Hidx Hi) as Hin.
    destruct (updateStep_in_range update σ prev Hprev Hin)
      as (next & Hnext & _ & Hlen & Hsteps).
    exists next. split; [done|]. split; [done|]. split.
    + destruct (lookup_lt_is_Some_2 (plan_steps prev) i Hi) as [st Hst].
      destruct (Hsteps i st Hst) as (st' & Hst' & Hpatch).
      rewrite Hidx in Hpatch. destruct Hpatch as [Hd Hs]. exists st, st'.
      split; [done|]. split; [done|]. split.
      * rewrite Hd. by destruct (upd_description update).
      * rewrite Hs. by destruct (upd_status update).
    + intros j Hji. destruct (plan_steps prev !! j) as [st|] eqn:Hst.
      * destruct (Hsteps j st Hst) as (st' & Hst' & Hsame).
        rewrite (num_eq_unique _ _ _ Hidx Hji) in Hsame. by subst.
      * apply lookup_ge_None in Hst. apply lookup_ge_None. lia.
  - intros σ prev a b c Hprev Hsteps.
    unfold update_plan_step_effect.
    assert (normalizeUpdateResult (VObj [("index", VStr "2"); ("status", VStr "completed")])
            = Normal (Some {| index := of_nat 2; upd_description := None;
                              upd_status := Some completed |})) as ->
      by reflexivity.
    simpl. unfold updateStep. rewrite Hprev, Hsteps.
    eexists _, _. split; [reflexivity|]. split; [reflexivity|].
    reflexivity.
Qed.

End Patch.

(** The three-step plan of the examples: a description for its second
    step, then the string index 2 with a status. *)
Lemma update_third_step_of_three :
  let σ := setPlan (Some {| steps := [ {| description := "a"; status := pending |};
                                       {| description := "b"; status := pending |};
                                       {| description := "c"; status := pending |} ] |})
                   initial in
  let update := {| index := of_nat 1; upd_description := Some "x"; upd_status := None |} in
  (exists prev next st',
     plan σ = Some prev /\
     num_eq (of_nat 1) (index update) = true /\
     1 < length (plan_steps prev) /\
     plan (updateStep update σ) = Some next /\
     plan_steps next !! 1 = Some st' /\
     description (step st') = "x" /\ status (step st') = pending /\
     plan_steps next !! 0 = plan_steps prev !! 0 /\
     plan_steps next !! 2 = plan_steps prev !! 2) /\
  (exists σ' next,
     @update_plan_step_effect SampleHost.host
       (VObj [("index", VStr "2"); ("status", VStr "completed")]) σ = Normal σ' /\
     plan σ' = Some next /\
     plan_of next =
       {| steps := [ {| description := "a"; status := pending |};
                     {| description := "b"; status := pending |};
                     {| description := "c"; status := completed |} ] |}).
Proof.
  intros σ update. split.
  - pose (prev := default {| plan_ref := 0; steps_ref := 0; plan_steps := [] |} (plan σ)).
    assert (1 < length (plan_steps prev)) as Hlt by (simpl; lia).
    destruct (proj1 (proj2 (@updateStep_changes_only_the_indexed_step SampleHost.host))
                update σ prev 1 eq_refl eq_refl Hlt)
      as (next & Hnext & _ & (st & st' & Hst & Hst' & Hd & Hs) & Hothers).
    injection Hst as <-.
    exists prev, next, st'. split; [reflexivity|]. split; [reflexivity|].
    split; [exact Hlt|]. split; [exact Hnext|]. split; [exact Hst'|].
    split; [exact Hd|]. split; [exact Hs|].
    split; apply Hothers; discriminate.
  - destruct (proj2 (proj2 (@updateStep_changes_only_the_indexed_step SampleHost.host))
                σ _ _ _ _ eq_refl eq_refl) as (σ' & next & Heff & Hplan & Hof).
    exists σ', next. auto.
Defined.

Section Update.
Context `{Host}.

Lemma is_integer_of_Z (z : Z) : is_integer (of_Z z) = true.
Proof.
  unfold is_integer, of_Z. rewrite Qfloor_Z. apply Qeq_bool_iff. reflexivity.
Qed.

(** The bytes that [skip_spaces] skips are the characters of the white
    space of the language, and no other. *)
Lemma skip_spaces_white_space (cp : N) (s : string) :
  In cp white_space_code_points -> skip_spaces (utf8 cp +:+ s) = skip_spaces s.
Proof.
  unfold white_space_code_points. cbn [In].
  intros Hcp. repeat (destruct Hcp as [<- | Hcp]; [reflexivity|]). destruct Hcp.
Qed.

Lemma byte_of_code (c : ascii) (n : nat) : nat_of_ascii c = n -> c = ascii_of_nat n.
Proof. intros <-. symmetry. apply ascii_nat_embedding. Qed.

Ltac listed_white_space :=
  unfold white_space_code_points; cbn [In];
  repeat (first [left; reflexivity | right]).

Ltac white_space_among H rest points :=
  lazymatch points with
  | ?cp :: ?others =>
      first [ apply (H cp rest); [listed_white_space | reflexivity]
            | white_space_among H rest others ]
  end.

(** Closes a goal where the text starts with the bytes of a white space
    character, against the hypothesis [H] that it starts with none. *)
Ltac is_white_space H rest :=
  exfalso;
  repeat match goal with
         | E : nat_of_ascii ?c = _ |- _ => apply byte_of_code in E; subst c
         end;
  let points := eval cbv delta [white_space_code_points] in white_space_code_points in
  white_space_among H rest points.

Lemma skip_spaces_other (s : string) :
  (forall cp t, In cp white_space_code_points -> s <> utf8 cp +:+ t) ->
  skip_spaces s = s.
Proof.
  intros Hs. destruct s as [|c1 rest1]; [done|]. cbn [skip_spaces].
  destruct (is_space c1) eqn:H1.
  { unfold is_space in H1. cbn zeta in H1.
    rewrite orb_true_iff, andb_true_iff, Nat.eqb_eq, !Nat.leb_le in H1.
    assert (Hc : nat_of_ascii c1 = 32 \/ nat_of_ascii c1 = 9 \/ nat_of_ascii c1 = 10
                 \/ nat_of_ascii c1 = 11 \/ nat_of_ascii c1 = 12
                 \/ nat_of_ascii c1 = 13) by lia.
    clear H1. intuition idtac; is_white_space Hs rest1. }
  destruct rest1 as [|c2 rest2]; [done|].
  destruct (is_space2 c1 c2) eqn:H2.
  { unfold is_space2 in H2. rewrite andb_true_iff, !Nat.eqb_eq in H2.
    destruct H2 as [E1 E2]. is_white_space Hs rest2. }
  destruct rest2 as [|c3 rest3]; [done|].
  destruct (is_space3 c1 c2 c3) eqn:H3; [|done].
  clear H1 H2. unfold is_space3 in H3. cbn zeta in H3.
  repeat first [rewrite orb_true_iff in H3 | rewrite andb_true_iff in H3].
  rewrite !Nat.eqb_eq, !Nat.leb_le in H3.
  assert (Hc : 128 <= nat_of_ascii c3 <= 138 ->
               nat_of_ascii c3 = 128 \/ nat_of_ascii c3 = 129 \/ nat_of_ascii c3 = 130
               \/ nat_of_ascii c3 = 131 \/ nat_of_ascii c3 = 132
               \/ nat_of_ascii c3 = 133 \/ nat_of_ascii c3 = 134
               \/ nat_of_ascii c3 = 135 \/ nat_of_ascii c3 = 136
               \/ nat_of_ascii c3 = 137 \/ nat_of_ascii c3 = 138) by lia.
  intuition idtac; is_white_space Hs rest3.
Qed.

(** [parseInt] yields an integer, an infinity or NaN. *)
Lemma parseInt10_integer (s : string) :
  isFinite (parseInt10 s) = true -> is_integer (parseInt10 s) = true.
Proof.
  unfold parseInt10.
  match goal with
  | |- context [let '(_, _) := ?p in _] => destruct p as [negative body]
  end.
  destruct (digits_prefix None body) as [m|]; [|discriminate].
  destruct (nearest_double m) as [d|]; [|discriminate].
  intros _. apply is_integer_of_Z.
Qed.

Lemma parseInt10_white_space (cp : N) (s : string) :
  In cp white_space_code_points -> parseInt10 (utf8 cp +:+ s) = parseInt10 s.
Proof. intros Hcp. unfold parseInt10. by rewrite (skip_spaces_white_space _ _ Hcp). Qed.

Lemma lt_zero_negative (idx : number) : lt idx (of_nat 0) = true <-> negative idx.
Proof.
  destruct idx as [|[]|q]; try (simpl; intuition congruence). apply lt_zero.
Qed.

(** What [normalizeUpdateResult] returns on a record whose index reads. *)
Lemma normalizeUpdateResult_record (v record indexRaw : value) (idx : number) :
  asRecord v = Normal (Some record) ->
  get record "index" = Normal indexRaw ->
  index_of indexRaw = Normal idx ->
  exists d st,
    get record "description" = Normal d /\
    get record "status" = Normal st /\
    normalizeUpdateResult v =
      Normal (if negb (isFinite idx) || lt idx (of_nat 0) then None
              else Some {| index := idx;
                           upd_description :=
                             match d with VStr s => Some s | _ => None end;
                           upd_status :=
                             if is_string_lit st "completed" then Some completed
                             else if is_string_lit st "pending" then Some pending
                             else None |}).
Proof.
  intros Hr Hi Hidx.
  destruct (asRecord_returns v) as [Hn | (r & Hr' & Hrec)]; [congruence|].
  assert (r = record) as -> by congruence.
  destruct (get_record record "description" Hrec) as [d Hd].
  destruct (get_record record "status" Hrec) as [st Hst].
  exists d, st. split; [done|]. split; [done|].
  unfold normalizeUpdateResult. rewrite Hr. simpl. rewrite Hi. simpl.
  rewrite Hidx. simpl.
  destruct (negb (isFinite idx) || lt idx (of_nat 0)); [done|].
  by rewrite Hd, Hst.
Qed.

Lemma is_string_lit_spec (v : value) (lit : string) :
  is_string_lit v lit = true <-> v = VStr lit.
Proof.
  destruct v; simpl; try (split; [discriminate | congruence]).
  rewrite String.eqb_eq. split; congruence.
Qed.

(** C8, amended.  [normalizeUpdateResult] resolves its argument to a
    record.  A numeric [index] field is taken as it is; a text field is
    parsed as a decimal integer, so a finite index read from text is an
    integer, and white space of the language before the number, ASCII or
    not, makes no difference; an absent field reads as -1.  Whenever the index reads, the
    function returns, and it returns [null] exactly when the index is not
    finite or is negative; it also returns [null] when the argument
    resolves to no record.  In a returned update the index is the index
    read, the description is present exactly when the record's
    [description] is text, and is that text, and the status is present
    exactly when the record's [status] is the text of a status, and is
    that status. *)
Theorem normalizeUpdateResult_index_and_fields :
  (forall n, index_of (VNum n) = Normal n) /\
  (forall s, index_of (VStr s) = Normal (parseInt10 s) /\
             (isFinite (parseInt10 s) = true -> is_integer (parseInt10 s) = true)) /\
  (forall cp s, In cp white_space_code_points ->
     index_of (VStr (utf8 cp +:+ s)) = index_of (VStr s)) /\
  (index_of VUndefined = Normal (of_Z (-1)) /\ index_of VNull = Normal (of_Z (-1))) /\
  (forall v, asRecord v = Normal None -> normalizeUpdateResult v = Normal None) /\
  (forall v record indexRaw idx,
     asRecord v = Normal (Some record) ->
     get record "index" = Normal indexRaw ->
     index_of indexRaw = Normal idx ->
     (exists r, normalizeUpdateResult v = Normal r) /\
     (normalizeUpdateResult v = Normal None <-> isFinite idx = false \/ negative idx) /\
     (forall u, normalizeUpdateResult v = Normal (Some u) ->
        index u = idx /\
        (forall d, upd_description u = Some d <->
                   get record "description" = Normal (VStr d)) /\
        (forall st, upd_status u = Some st <->
                    get record "status" = Normal (VStr (status_text st))))).
Proof.
  split; [done|]. split; [split; [done | apply parseInt10_integer]|].
  split.
  { intros cp s Hcp. cbn [index_of coalesce nullish ToString mbind completion_bind].
    by rewrite (parseInt10_white_space _ _ Hcp). }
  split; [split; reflexivity|].
  split. { intros v Hn. unfold normalizeUpdateResult. by rewrite Hn. }
  intros v record indexRaw idx Hr Hi Hidx.
  destruct (normalizeUpdateResult_record v record indexRaw idx Hr Hi Hidx)
    as (d & st & Hd & Hst & ->).
  split; [eauto|]. split.
  - destruct (isFinite idx) eqn:Hfin; simpl.
    + destruct (lt idx (of_nat 0)) eqn:Hlt.
      * split; [|done]. intros _. right. by apply lt_zero_negative.
      * split; [discriminate|]. intros [? | Hneg]; [discriminate|].
        apply lt_zero_negative in Hneg. congruence.
    + split; auto.
  - intros u Hu.
    destruct (negb (isFinite idx) || lt idx (of_nat 0)); [discriminate|].
    injection Hu as <-. simpl. split; [done|]. split.
    + intros d'. rewrite Hd. destruct d; split; congruence.
    + intros st'. rewrite Hst.
      destruct (is_string_lit st "completed") eqn:Hc.
      { apply is_string_lit_spec in Hc as ->.
        destruct st'; simpl; split; congruence. }
      destruct (is_string_lit st "pending") eqn:Hp.
      { apply is_string_lit_spec in Hp as ->.
        destruct st'; simpl; split; congruence. }
      split; [discriminate|]. intros Heq. injection Heq as ->.
      destruct st'; simpl in *; congruence.
Qed.

End Update.

(** A numeric index goes into the update as it is, integer or not. *)
Lemma numeric_index_is_taken_as_is :
  exists u,
    @normalizeUpdateResult SampleHost.host (VObj [("index", VNum (Finite (3 # 2)))])
      = Normal (Some u) /\
    index u = Finite (3 # 2) /\
    is_integer (index u) = false.
Proof. eexists. split; [reflexivity|]. split; reflexivity. Qed.

(** The string index 2 with a status, on the sample host. *)
Lemma normalizeUpdateResult_string_index :
  let v := VObj [("index", VStr "2"); ("status", VStr "completed")] in
  @asRecord SampleHost.host v = Normal (Some v) /\
  get v "index" = Normal (VStr "2") /\
  @index_of SampleHost.host (VStr "2") = Normal (of_Z 2) /\
  forall u, @normalizeUpdateResult SampleHost.host v = Normal (Some u) ->
    index u = of_Z 2.
Proof.
  intros v. split; [reflexivity|]. split; [reflexivity|]. split; [reflexivity|].
  intros u Hu.
  apply (proj2 (proj2 (proj2 (proj2 (proj2
           (@normalizeUpdateResult_index_and_fields SampleHost.host)))))
           v v (VStr "2") (of_Z 2) eq_refl eq_refl eq_refl).
  exact Hu.
Defined.

End PlanFacts.

Module AdapterFacts.
Import JS DataStreamAdapter AdapterSpec CompletionFacts.

Lemma array_map_ok {A B} (f : A -> completion B) (g : A -> B) (l : list A) :
  Forall (fun x => f x = Normal (g x)) l -> array_map f l = Normal (g <$> l).
Proof.
  induction 1 as [|x l Hx _ IH]; simpl; [done|]. by rewrite Hx, IH.
Qed.

Lemma array_filter_ok {A} (f : A -> completion bool) (g : A -> bool) (l : list A) :
  Forall (fun x => f x = Normal (g x)) l ->
  array_filter f l = Normal (filter (fun x => g x = true) l).
Proof.
  induction 1 as [|x l Hx _ IH]; simpl; [done|]. rewrite Hx, IH. simpl.
  rewrite filter_cons. by destruct (g x).
Qed.

Lemma get_field (v : value) (k : string) :
  nullish v = false -> get v k = Normal (field v k).
Proof. by destruct v. Qed.

Lemma is_object_not_nullish (v : value) : is_object v = true -> nullish v = false.
Proof. by destruct v. Qed.

Lemma last_cons_default {A} (x d : A) (l : list A) :
  default d (last (x :: l)) = default x (last l).
Proof. destruct l as [|y l]; [done|]. rewrite last_cons. by destruct (last (y :: l)). Qed.

Lemma forallb_all {A} (f : A -> bool) (l : list A) :
  forallb f l = true -> Forall (fun x => f x = true) l.
Proof.
  induction l as [|x l IH]; simpl; [constructor|].
  intros [Hx Hl]%andb_true_iff. constructor; auto.
Qed.

Section Transform.
Context `{Host}.

Lemma join_texts (parts : list value) :
  Forall (fun part => part_ok part = true) parts ->
  Forall (fun part => text_typed part = true) parts ->
  join "" ((fun part => or_else (field part "text") (VStr "")) <$> parts)
  = Normal (String.concat "" (part_text <$> parts)).
Proof.
  intros Hok Htext. unfold join.
  assert (join_parts ((fun part => or_else (field part "text") (VStr "")) <$> parts)
          = Normal (part_text <$> parts)) as Hj; [|by rewrite Hj].
  induction Hok as [|part parts Hpart _ IH]; [done|].
  apply Forall_cons in Htext as [Ht Htext].
  rewrite !fmap_cons. cbn [join_parts]. rewrite (IH Htext).
  unfold part_ok in Hpart. rewrite Ht in Hpart.
  change (part_text part)
    with (match field part "text" with VStr s => s | _ => "" end).
  destruct (field part "text") as [| | | |s| |];
    rewrite ?andb_false_r in Hpart; try discriminate; [done|].
  by destruct s.
Qed.

Lemma system_content_ok (msg : value) :
  message_ok msg = true -> system_content msg = Normal (message_text msg).
Proof.
  unfold message_ok. intros [Hobj Hcontent]%andb_true_iff.
  unfold system_content, message_text, parts_of.
  rewrite (get_field _ _ (is_object_not_nullish _ Hobj)). simpl.
  destruct (field msg "content") as [| | | | |parts|]; try done. simpl.
  apply forallb_all in Hcontent as Hparts.
  rewrite (array_filter_ok _ text_typed).
  2:{ eapply Forall_impl; [exact Hparts|]. intros part [Hp _]%andb_true_iff.
      by rewrite (get_field _ _ (is_object_not_nullish _ Hp)). }
  simpl.
  rewrite (array_map_ok _ (fun part => or_else (field part "text") (VStr ""))).
  2:{ apply Forall_forall. intros part [_ Hin]%list_elem_of_filter.
      rewrite Forall_forall in Hparts.
      apply Hparts, andb_true_iff in Hin as [Hp _].
      by rewrite (get_field _ _ (is_object_not_nullish _ Hp)). }
  simpl. apply join_texts.
  - apply Forall_forall. intros part [_ Hin]%list_elem_of_filter.
    rewrite Forall_forall in Hparts. by apply Hparts.
  - apply Forall_forall. by intros part [Ht _]%list_elem_of_filter.
Qed.

Lemma transformed_content_ok (msg : value) :
  message_ok msg = true ->
  transformed_content msg = Normal (rewritten_part <$> parts_of msg).
Proof.
  unfold message_ok. intros [Hobj Hcontent]%andb_true_iff.
  unfold transformed_content, parts_of.
  rewrite (get_field _ _ (is_object_not_nullish _ Hobj)). simpl.
  destruct (field msg "content") as [| | | | |parts|]; try done.
  apply forallb_all in Hcontent as Hparts.
  change (or_else (VArr parts) (VArr [])) with (VArr parts). cbv iota.
  apply array_map_ok.
  eapply Forall_impl; [exact Hparts|]. intros part [Hp _]%andb_true_iff.
  apply is_object_not_nullish in Hp. unfold rewritten_part, text_typed.
  rewrite !(get_field _ _ Hp). simpl.
  by destruct (is_string_lit (field part "type") "text").
Qed.

Lemma system_texts_cons (msg : value) (msgs : list value) :
  system_texts (msg :: msgs) =
    if has_role "system" msg && negb (String.eqb (message_text msg) "")
    then message_text msg :: system_texts msgs
    else system_texts msgs.
Proof.
  unfold system_texts. rewrite filter_cons.
  destruct (has_role "system" msg).
  - rewrite decide_True by done. rewrite fmap_cons, filter_cons.
    destruct (String.eqb_spec (message_text msg) "") as [Heq | Hne].
    + by rewrite decide_False by (intros Hne; by apply Hne).
    + by rewrite decide_True.
  - by rewrite decide_False.
Qed.

Lemma expected_messages_cons (msg : value) (msgs : list value) :
  expected_messages (msg :: msgs) =
    if has_role "user" msg || has_role "assistant" msg
    then expected_message msg :: expected_messages msgs
    else expected_messages msgs.
Proof.
  unfold expected_messages. rewrite filter_cons.
  destruct (has_role "user" msg || has_role "assistant" msg).
  - by rewrite decide_True.
  - by rewrite decide_False.
Qed.

Lemma message_step_ok (msg : value) (system : string) (acc : list BackendMessage) :
  message_ok msg = true ->
  message_step (system, acc) msg =
    Normal (if has_role "system" msg then
              (if negb (String.eqb (message_text msg) "")
               then message_text msg else system, acc)
            else if has_role "user" msg || has_role "assistant" msg then
              (system, acc ++ [expected_message msg])
            else (system, acc)).
Proof.
  intros Hmsg. pose proof Hmsg as [Hobj _]%andb_true_iff.
  unfold message_step, has_role.
  rewrite (get_field _ _ (is_object_not_nullish _ Hobj)).
  cbn [mbind completion_bind].
  destruct (is_string_lit (field msg "role") "system").
  - rewrite (system_content_ok _ Hmsg). cbn [mbind completion_bind].
    by destruct (negb (String.eqb (message_text msg) "")).
  - destruct (is_string_lit (field msg "role") "user"
              || is_string_lit (field msg "role") "assistant"); [|done].
    by rewrite (transformed_content_ok _ Hmsg).
Qed.

Lemma role_system_only (msg : value) :
  has_role "system" msg = true ->
  has_role "user" msg || has_role "assistant" msg = false.
Proof.
  unfold has_role. destruct (field msg "role") as [| | | |r| |]; try discriminate.
  simpl. by intros ->%String.eqb_eq.
Qed.

(** The loop over the messages: [system] ends as the last non-empty text
    of a system message, if there is one, and [messages] gains the user
    and assistant messages in input order. *)
Lemma message_loop (msgs : list value) (system : string) (acc : list BackendMessage) :
  Forall (fun msg => message_ok msg = true) msgs ->
  for_of message_step msgs (system, acc)
  = Normal (default system (last (system_texts msgs)), acc ++ expected_messages msgs).
Proof.
  intros Hok. revert system acc.
  induction Hok as [|msg msgs Hmsg _ IH]; intros system acc.
  { simpl. by rewrite app_nil_r. }
  cbn [for_of]. rewrite (message_step_ok _ _ _ Hmsg).
  cbn [mbind completion_bind].
  rewrite system_texts_cons, expected_messages_cons.
  destruct (has_role "system" msg) eqn:Hsys.
  - rewrite (role_system_only _ Hsys). rewrite IH. cbn [andb].
    destruct (negb (String.eqb (message_text msg) "")); [|done].
    by rewrite last_cons_default.
  - cbn [andb].
    destruct (has_role "user" msg || has_role "assistant" msg); rewrite IH; [|done].
    by rewrite <- app_assoc.
Qed.

Lemma transform_tools_ok (tools : value) :
  tools_ok tools = true -> transform_tools tools = Normal (expected_tools tools).
Proof.
  intros Hok. unfold transform_tools.
  destruct tools as [| |b|n|s|l|props]; simpl; try done.
  - by destruct b.
  - by destruct n as [| |q]; [| |destruct (Qeq_bool q 0)].
  - by destruct (String.eqb s "").
  - destruct l as [|tool l]; [done|].
    change (Nat.ltb 0 (length (tool :: l))) with true. cbv iota.
    apply array_map_ok. apply forallb_all in Hok.
    eapply Forall_impl; [exact Hok|]. intros e He%negb_true_iff.
    by rewrite !(get_field _ _ He).
  - destruct props as [|entry props]; [done|].
    change (Nat.ltb 0 (length (entry :: props))) with true. cbv iota.
    apply array_map_ok. apply Forall_forall. intros [key tool] _.
    unfold get_opt, tool_of_pair. simpl.
    destruct (nullish tool) eqn:Hn.
    + by destruct tool.
    + by rewrite !(get_field _ _ Hn).
Qed.

(** What the transform returns on a well-shaped request. *)
Lemma transform_ok (request : value) (systemMessage : option string) :
  request_ok request = true ->
  transformRequestToBackendFormat request systemMessage =
    Normal {| system := expected_system (messages_of request) systemMessage;
              tools := expected_tools (field request "tools");
              messages := expected_messages (messages_of request) |}.
Proof.
  unfold request_ok. intros [[Hobj Hmsgs]%andb_true_iff Htools]%andb_true_iff.
  unfold transformRequestToBackendFormat, messages_of, expected_system.
  rewrite !(get_field _ _ (is_object_not_nullish _ Hobj)).
  cbn [mbind completion_bind].
  assert (exists msgs,
            iterate (or_else (field request "messages") (VArr [])) = Normal msgs /\
            match field request "messages" with VArr l => l | _ => [] end = msgs /\
            Forall (fun msg => message_ok msg = true) msgs) as (msgs & -> & -> & Hall).
  { destruct (field request "messages") as [| | | | |l|]; try discriminate.
    - by exists [].
    - by exists [].
    - exists l. auto using forallb_all. }
  cbn [mbind completion_bind].
  rewrite (message_loop _ _ _ Hall). cbn [mbind completion_bind].
  by rewrite (transform_tools_ok _ Htools).
Qed.

Lemma system_texts_app (before after : list value) :
  system_texts (before ++ after) = system_texts before ++ system_texts after.
Proof. unfold system_texts. by rewrite filter_app, fmap_app, filter_app. Qed.

(** C1, amended.  On a well-shaped request the transform returns, and the
    [system] of its output is the concatenated text of the text parts of
    the last system message whose concatenated text is not empty; when no
    system message has text, it is the override when one is given and
    the empty text otherwise.  A system message with text thus takes
    precedence over the override. *)
Theorem system_is_last_system_text_else_override
    (request : value) (systemMessage : option string) :
  request_ok request = true ->
  exists out,
    transformRequestToBackendFormat request systemMessage = Normal out /\
    system out
      = default (default "" systemMessage) (last (system_texts (messages_of request))) /\
    (system_texts (messages_of request) = [] ->
       system out = match systemMessage with Some text => text | None => "" end) /\
    (forall before msg after,
       messages_of request = before ++ msg :: after ->
       has_role "system" msg = true ->
       message_text msg <> "" ->
       system_texts after = [] ->
       system out = message_text msg).
Proof.
  intros Hok. eexists. split; [by apply transform_ok|]. simpl.
  split; [done|]. split.
  - unfold expected_system. intros ->. by destruct systemMessage.
  - intros before msg after Hmsgs Hsys Htext Hafter.
    unfold expected_system.
    rewrite Hmsgs, system_texts_app, system_texts_cons, Hsys, Hafter.
    destruct (String.eqb_spec (message_text msg) "") as [|_]; [done|].
    simpl. by rewrite last_snoc.
Qed.

(** C9, amended.  On a well-shaped request the output messages are the
    input messages whose role is [user] or [assistant], in input order,
    each with its role and with its parts mapped one by one: a text part
    becomes the object of exactly its type and its text (the empty text
    when it has none), any other part goes through as it is. *)
Theorem messages_keep_user_and_assistant
    (request : value) (systemMessage : option string) :
  request_ok request = true ->
  exists out,
    transformRequestToBackendFormat request systemMessage = Normal out /\
    messages out
      = (fun msg =>
           {| role := field msg "role";
              content :=
                (fun part =>
                   if text_typed part
                   then VObj [("type", VStr "text");
                              ("text", or_else (field part "text") (VStr ""))]
                   else part)
                  <$> parts_of msg |})
          <$> filter (fun msg => has_role "user" msg || has_role "assistant" msg = true)
                     (messages_of request).
Proof.
  intros Hok. eexists. split; [by apply transform_ok|]. reflexivity.
Qed.

(** C6.  On a well-shaped request the transform returns, and the [tools]
    of its output is a sequence: empty when the input has no [tools], an
    empty array or an object without keys; for an object, one tool per
    entry, named by the key, with the description of the value and its
    parameters or the empty object; for an array, one tool per element,
    named by the name of the element or, when it has none, by the element
    itself, so that a bare string names itself. *)
Theorem tools_become_a_sequence
    (request : value) (systemMessage : option string) :
  request_ok request = true ->
  exists out,
    transformRequestToBackendFormat request systemMessage = Normal out /\
    (field request "tools" = VUndefined \/ field request "tools" = VArr []
     \/ field request "tools" = VObj [] -> tools out = []) /\
    (forall props, field request "tools" = VObj props ->
       tools out
         = (fun entry : string * value =>
              {| name := VStr entry.1;
                 description := field entry.2 "description";
                 parameters := or_else (field entry.2 "parameters") (VObj []) |})
             <$> props) /\
    (forall l, field request "tools" = VArr l ->
       tools out
         = (fun tool =>
              {| name := or_else (field tool "name") tool;
                 description := field tool "description";
                 parameters := or_else (field tool "parameters") (VObj []) |})
             <$> l) /\
    (forall l i s, field request "tools" = VArr l -> l !! i = Some (VStr s) ->
       tools out !! i
         = Some {| name := VStr s; description := VUndefined; parameters := VObj [] |}) /\
    (field request "tools" = VObj [("search", VObj [("description", VStr "d")])] ->
       tools out
         = [ {| name := VStr "search"; description := VStr "d"; parameters := VObj [] |} ]).
Proof.
  intros Hok. eexists. split; [by apply transform_ok|]. simpl.
  split; [by intros [-> | [-> | ->]]|].
  split; [by intros props ->|].
  split; [by intros l ->|].
  split; [|by intros ->].
  intros l i s -> Hi. simpl. by rewrite list_lookup_fmap, Hi.
Qed.

End Transform.

(** Requests of the examples. *)
Lemma system_message_beats_override :
  (exists out,
     @transformRequestToBackendFormat SampleHost.host
       (VObj [("messages",
               VArr [VObj [("role", VStr "system");
                           ("content", VArr [VObj [("type", VStr "text");
                                                   ("text", VStr "A")]])]])])
       (Some "O") = Normal out /\
     system out = "A" /\ system out <> "O") /\
  (exists out,
     @transformRequestToBackendFormat SampleHost.host
       (VObj [("messages",
               VArr [VObj [("role", VStr "system");
                           ("content", VArr [VObj [("type", VStr "text");
                                                   ("text", VStr "A")]])];
                     VObj [("role", VStr "system"); ("content", VArr [])]])])
       None = Normal out /\
     system out = "A" /\ system out <> "").
Proof.
  split; eexists; (split; [reflexivity|]); (split; [reflexivity|]);
    simpl; discriminate.
Qed.

Lemma system_text_of_two_parts :
  let request :=
    VObj [("messages",
           VArr [VObj [("role", VStr "system");
                       ("content", VArr [VObj [("type", VStr "text"); ("text", VStr "A")];
                                         VObj [("type", VStr "text"); ("text", VStr "B")]])];
                 VObj [("role", VStr "user");
                       ("content", VArr [VObj [("type", VStr "text");
                                               ("text", VStr "hi")]])]])] in
  request_ok request = true /\
  exists out,
    @transformRequestToBackendFormat SampleHost.host request None = Normal out /\
    system out = "AB".
Proof.
  intros request. split; [reflexivity|].
  destruct (@system_is_last_system_text_else_override SampleHost.host request None eq_refl)
    as (out & Hout & Hsys & _).
  exists out. split; [exact Hout|]. rewrite Hsys. reflexivity.
Defined.

Lemma text_part_is_rebuilt :
  exists out,
    @transformRequestToBackendFormat SampleHost.host
      (VObj [("messages",
              VArr [VObj [("role", VStr "user");
                          ("content", VArr [VObj [("type", VStr "text");
                                                  ("text", VStr "hi");
                                                  ("annotations", VArr [])]])]])])
      None = Normal out /\
    messages out
      = [ {| role := VStr "user";
             content := [VObj [("type", VStr "text"); ("text", VStr "hi")]] |} ] /\
    messages out
      <> [ {| role := VStr "user";
              content := [VObj [("type", VStr "text"); ("text", VStr "hi");
                                ("annotations", VArr [])]] |} ].
Proof.
  eexists. split; [reflexivity|]. split; [reflexivity|]. simpl. discriminate.
Qed.

Lemma system_message_is_dropped :
  let request :=
    VObj [("messages",
           VArr [VObj [("role", VStr "system");
                       ("content", VArr [VObj [("type", VStr "text"); ("text", VStr "A")]])];
                 VObj [("role", VStr "user");
                       ("content", VArr [VObj [("type", VStr "text");
                                               ("text", VStr "hi")]])]])] in
  request_ok request = true /\
  exists out,
    @transformRequestToBackendFormat SampleHost.host request None = Normal out /\
    messages out
      = [ {| role := VStr "user";
             content := [VObj [("type", VStr "text"); ("text", VStr "hi")]] |} ].
Proof.
  intros request. split; [reflexivity|].
  destruct (@messages_keep_user_and_assistant SampleHost.host request None eq_refl)
    as (out & Hout & Hmsgs).
  exists out. split; [exact Hout|]. rewrite Hmsgs. reflexivity.
Defined.

Lemma tools_of_a_search_mapping :
  let request :=
    VObj [("messages", VArr []);
          ("tools", VObj [("search", VObj [("description", VStr "d")])])] in
  request_ok request = true /\
  exists out,
    @transformRequestToBackendFormat SampleHost.host request None = Normal out /\
    tools out
      = [ {| name := VStr "search"; description := VStr "d"; parameters := VObj [] |} ].
Proof.
  intros request. split; [reflexivity|].
  destruct (@tools_become_a_sequence SampleHost.host request None eq_refl)
    as (out & Hout & _ & _ & _ & _ & Hsearch).
  exists out. split; [exact Hout|]. apply Hsearch. reflexivity.
Defined.

Section Interceptor.
Context `{Host}.

Lemma lookup_spread {A : Type} (target source : gmap string A) (k : string) :
  spread target source !! k =
    match source !! k with
    | Some v => Some v
    | None => target !! k
    end.
Proof.
  unfold spread. rewrite lookup_union.
  by destruct (source !! k), (target !! k).
Qed.

(** The merged header record, key by key. *)
Lemma merged_headers_lookup (headers : gmap string string) (init : Fetch.Init)
    (k : string) :
  merged_headers headers init !! k =
    match own_properties (Fetch.headers init) !! k with
    | Some v => Some v
    | None =>
        match headers !! k with
        | Some v => Some (Fetch.Text v)
        | None =>
            if decide (k = "Content-Type")
            then Some (Fetch.Text "application/json") else None
        end
    end.
Proof.
  unfold merged_headers. rewrite !lookup_spread, lookup_fmap, lookup_singleton.
  destruct (own_properties (Fetch.headers init) !! k); [done|].
  destruct (headers !! k); [done|]. cbn.
  destruct (decide (k = "Content-Type")) as [->|Hne].
  - by rewrite decide_True.
  - by rewrite decide_False.
Qed.

(** The properties a spread copies from an array of pairs: the pairs,
    under their positions in decimal. *)
Lemma own_properties_array (pairs : list (list string)) (k : string)
    (v : Fetch.HeaderEntry) :
  own_properties (Some (Fetch.HeadersArray pairs)) !! k = Some v <->
  exists i pair, pairs !! i = Some pair /\ k = pretty i /\ v = Fetch.Pair pair.
Proof.
  unfold own_properties. rewrite <- elem_of_list_to_map.
  - rewrite elem_of_lookup_imap. split.
    + intros (i & pair & Heq & Hi). injection Heq as -> ->. eauto.
    + intros (i & pair & Hi & -> & ->). eauto.
  - rewrite fmap_imap.
    rewrite (imap_ext _ (fun i _ => pretty i)) by done.
    rewrite imap_seq_0. apply NoDup_fmap; [apply _ | apply NoDup_seq].
Qed.

(** What the call's headers contribute to a merge, by their form. *)
Lemma own_properties_by_form (h : option Fetch.Headers) :
  match h with
  | Some (Fetch.HeadersRecord props) => own_properties h = props
  | Some (Fetch.HeadersArray pairs) =>
      forall k v,
        own_properties h !! k = Some v <->
        exists i pair, pairs !! i = Some pair /\ k = pretty i /\ v = Fetch.Pair pair
  | Some (Fetch.HeadersObject _) | None => own_properties h = ∅
  end.
Proof.
  destruct h as [[props|entries|pairs]|]; try reflexivity.
  intros k v. apply own_properties_array.
Qed.


End Interceptor.

(** C2.  Installing an interceptor puts a new wrapper around the function
    found in [window.fetch] at that moment.  The cleanup it returns sets
    [window.fetch] to that function, whatever is installed when it runs,
    and running it again changes nothing. *)
Theorem cleanup_restores_captured_fetch
    (apiEndpoint : string) (headers : option (gmap string string))
    (systemMessage : option string) (w : Window) :
  fetch (createFetchInterceptor apiEndpoint headers systemMessage w).1
    = Interceptor (closures w) apiEndpoint (default ∅ headers) systemMessage (fetch w) /\
  (forall w', fetch ((createFetchInterceptor apiEndpoint headers systemMessage w).2 w')
              = fetch w) /\
  (forall w',
     (createFetchInterceptor apiEndpoint headers systemMessage w).2
       ((createFetchInterceptor apiEndpoint headers systemMessage w).2 w')
     = (createFetchInterceptor apiEndpoint headers systemMessage w).2 w').
Proof. split; [reflexivity|]. split; intros w'; reflexivity. Qed.



End AdapterFacts.

(** * Examples on the sample host *)

Module PlanExamples.
Import JS PlanUI SampleHost.

Example parseInt10_leading_spaces_and_suffix : parseInt10 "  42abc" = of_Z 42.
Proof. reflexivity. Qed.

Example parseInt10_negative : parseInt10 "-5" = of_Z (-5).
Proof. reflexivity. Qed.

(** The bytes of a no-break space, of a byte order mark and of a
    character beyond the basic plane. *)
Example utf8_no_break_space :
  utf8 0xA0 = String (ascii_of_nat 194) (String (ascii_of_nat 160) "").
Proof. reflexivity. Qed.

Example utf8_byte_order_mark :
  utf8 0xFEFF
  = String (ascii_of_nat 239) (String (ascii_of_nat 187) (String (ascii_of_nat 191) "")).
Proof. reflexivity. Qed.

Example utf8_beyond_the_basic_plane :
  utf8 0x1F600
  = String (ascii_of_nat 240)
      (String (ascii_of_nat 159) (String (ascii_of_nat 152) (String (ascii_of_nat 128) ""))).
Proof. reflexivity. Qed.

(** A loop over a text visits its characters, not its bytes. *)
Example iterate_visits_characters :
  iterate (VStr ("a" +:+ utf8 0xE9 +:+ utf8 0x1F600 +:+ "b"))
  = Normal [VStr "a"; VStr (utf8 0xE9); VStr (utf8 0x1F600); VStr "b"].
Proof. reflexivity. Qed.

(** A no-break space (U+00A0) and a byte order mark (U+FEFF) before the
    digits are skipped; a zero width space (U+200B) is not. *)
Example parseInt10_no_break_space : parseInt10 (utf8 0xA0 +:+ "7") = of_Z 7.
Proof. reflexivity. Qed.

Example parseInt10_byte_order_mark : parseInt10 (utf8 0xFEFF +:+ " -12px") = of_Z (-12).
Proof. reflexivity. Qed.

Example parseInt10_zero_width_space : parseInt10 (utf8 0x200B +:+ "7") = NaN.
Proof. reflexivity. Qed.

Example parseInt10_no_digit : parseInt10 "abc" = NaN.
Proof. reflexivity. Qed.

Example parseInt10_rounds_to_even : parseInt10 "9007199254740993" = of_Z 9007199254740992.
Proof. reflexivity. Qed.

(** The round trip of the plan of one step. *)
Example normalizeCreateResult_one_step :
  normalizeCreateResult
    (VObj [("plan", VObj [("steps", VArr [VObj [("description", VStr "a")]])])])
  = Normal (Some {| steps := [ {| description := "a"; status := pending |} ] |}).
Proof. reflexivity. Qed.

(** A plan handed over without the [plan] wrapper, as JSON text. *)
Example normalizePlan_mixed_entries :
  normalizePlan
    (VObj [("steps", VArr [VStr step_text; VNull;
                           VObj [("description", VStr "b"); ("status", VStr "completed")];
                           VObj [("description", VStr "")]])])
  = Normal (Some {| steps := [ {| description := "a"; status := pending |};
                               {| description := "b"; status := completed |} ] |}).
Proof. reflexivity. Qed.

Example normalizeStep_not_json : normalizeStep (VStr "not json") = Normal None.
Proof. reflexivity. Qed.

(** An index held in an array converts to text and parses. *)
Example normalizeUpdateResult_array_index :
  normalizeUpdateResult (VObj [("index", VArr [VStr "3"])])
  = Normal (Some {| index := of_Z 3; upd_description := None; upd_status := None |}).
Proof. reflexivity. Qed.

(** An index behind a no-break space. *)
Example normalizeUpdateResult_index_after_no_break_space :
  normalizeUpdateResult (VObj [("index", VStr (utf8 0xA0 +:+ "7"))])
  = Normal (Some {| index := of_Z 7; upd_description := None; upd_status := None |}).
Proof. reflexivity. Qed.

(** An index object with an own [toString] property has no text. *)
Example normalizeUpdateResult_index_without_text :
  normalizeUpdateResult (VObj [("index", VObj [("toString", VNull)])]) = Throw TypeError.
Proof. reflexivity. Qed.

Example normalizeUpdateResult_missing_index :
  normalizeUpdateResult (VObj [("status", VStr "completed")]) = Normal None.
Proof. reflexivity. Qed.

End PlanExamples.

Module AdapterExamples.
Import JS DataStreamAdapter SampleHost.

(** A body that parses to [null] makes the transform throw; the call goes
    out with its own body and the merged headers. *)
Example intercept_falls_back :
  intercept "/api/chat" ∅ None (Fetch.InputString "/api/chat")
    (Some {| Fetch.method := Some "POST";
             Fetch.body := Some (Fetch.BodyText "null");
             Fetch.headers := None |})
  = Some {| Fetch.method := Some "POST";
            Fetch.body := Some (Fetch.BodyText "null");
            Fetch.headers :=
              Some (Fetch.HeadersRecord
                      {[ "Content-Type" := Fetch.Text "application/json" ]}) |}.
Proof. reflexivity. Qed.

Example intercept_leaves_get_alone :
  intercept "/api/chat" ∅ None (Fetch.InputString "/api/chat")
    (Some {| Fetch.method := Some "GET"; Fetch.body := None; Fetch.headers := None |})
  = Some {| Fetch.method := Some "GET"; Fetch.body := None; Fetch.headers := None |}.
Proof. reflexivity. Qed.

Example intercept_leaves_form_data_alone :
  intercept "/api/chat" ∅ None (Fetch.InputString "/api/chat")
    (Some {| Fetch.method := Some "POST";
             Fetch.body := Some Fetch.BodyFormData;
             Fetch.headers := None |})
  = Some {| Fetch.method := Some "POST";
            Fetch.body := Some Fetch.BodyFormData;
            Fetch.headers := None |}.
Proof. reflexivity. Qed.

(** The headers of a call that come as a [Headers] object are not passed
    on with a rewritten body; those that come as an array of pairs are
    passed on under the positions of the pairs. *)
Example intercept_drops_a_headers_object :
  intercept "/api/chat" ∅ None (Fetch.InputString "/api/chat")
    (Some {| Fetch.method := Some "POST";
             Fetch.body := Some (Fetch.BodyText "{}");
             Fetch.headers :=
               Some (Fetch.HeadersObject [("Authorization", "Bearer call")]) |})
  = Some {| Fetch.method := Some "POST";
            Fetch.body :=
              Some (Fetch.BodyText
                      (JSON_stringify
                         (request_value {| system := ""; tools := []; messages := [] |})));
            Fetch.headers :=
              Some (Fetch.HeadersRecord
                      {[ "Content-Type" := Fetch.Text "application/json" ]}) |}.
Proof. reflexivity. Qed.

Example intercept_spreads_an_array_of_pairs :
  intercept "/api/chat" ∅ None (Fetch.InputString "/api/chat")
    (Some {| Fetch.method := Some "POST";
             Fetch.body := Some (Fetch.BodyText "{}");
             Fetch.headers :=
               Some (Fetch.HeadersArray [["Authorization"; "Bearer call"]]) |})
  = Some {| Fetch.method := Some "POST";
            Fetch.body :=
              Some (Fetch.BodyText
                      (JSON_stringify
                         (request_value {| system := ""; tools := []; messages := [] |})));
            Fetch.headers :=
              Some (Fetch.HeadersRecord
                      (<[ "0" := Fetch.Pair ["Authorization"; "Bearer call"] ]>
                         {[ "Content-Type" := Fetch.Text "application/json" ]})) |}.
Proof. vm_compute. reflexivity. Qed.

(** Install, then clean up: the window has its function back. *)
Example install_then_cleanup :
  let w := {| fetch := Foreign 0; closures := 0 |} in
  let '(installed, cleanup) := createFetchInterceptor "/api/chat" None None w in
  fetch installed = Interceptor 0 "/api/chat" ∅ None (Foreign 0)
  /\ fetch (cleanup installed) = Foreign 0.
Proof. split; reflexivity. Qed.

End AdapterExamples.

(** * Further properties of the plan store *)

Module StoreFacts.
Import JS PlanUI PlanSpec StoreSpec.

Lemma out_of_range_no_position (idx : number) (n j : nat) :
  out_of_range idx n -> j < n -> num_eq (of_nat j) idx = false.
Proof.
  destruct idx as [| |q]; [reflexivity|reflexivity|]. simpl. intros Hout Hj.
  apply not_true_iff_false. intros Heq%Qeq_bool_iff.
  destruct Hout as [Hneg | Hge].
  - rewrite <- Heq in Hneg. change 0%Q with (inject_Z 0) in Hneg.
    rewrite <- Zlt_Qlt in Hneg. lia.
  - rewrite <- Heq in Hge. rewrite <- Zle_Qle in Hge. lia.
Qed.

Lemma imap_patched_steps (update : UpdatePlanResult) (base : ref) (l : list StepObj) :
  step <$> imap (fun idx st =>
                   if negb (num_eq (of_nat idx) (index update)) then st
                   else {| step_ref := base;
                           step := {|
                             description :=
                               default (description (step st)) (upd_description update);
                             status :=
                               default (status (step st)) (upd_status update) |} |}) l
  = imap (patched update) (step <$> l).
Proof.
  apply list_eq. intros j.
  rewrite list_lookup_fmap, !list_lookup_imap, list_lookup_fmap.
  destruct (l !! j) as [st|]; [|done].
  cbn [fmap option_fmap option_map]. unfold patched.
  by destruct (num_eq (of_nat j) (index update)).
Qed.

Lemma imap_patched_out_of_range (update : UpdatePlanResult) (l : list PlanStep) :
  out_of_range (index update) (length l) -> imap (patched update) l = l.
Proof.
  intros Hout. apply list_eq. intros j. rewrite list_lookup_imap.
  destruct (l !! j) as [s|] eqn:Hj; [|done].
  cbn [fmap option_fmap option_map]. unfold patched.
  apply lookup_lt_Some in Hj. by rewrite (out_of_range_no_position _ _ _ Hout Hj).
Qed.

(** X1.  Whatever the update and the state, [updateStep] maps the plan of
    the store step by step: the step whose position equals the index is
    patched, every other step is kept, and an index out of range matches
    no position. *)
Theorem updateStep_maps_steps (update : UpdatePlanResult) (σ : PlanState) :
  current (updateStep update σ)
  = (fun p => {| steps := imap (patched update) (steps p) |}) <$> current σ.
Proof.
  unfold current, updateStep. destruct (plan σ) as [prev|] eqn:Hprev; [|by rewrite Hprev].
  destruct (lt (index update) (of_nat 0)
            || ge (index update) (of_nat (length (plan_steps prev)))) eqn:Hguard.
  - rewrite Hprev. simpl. unfold plan_of. f_equal. f_equal.
    symmetry. apply imap_patched_out_of_range.
    rewrite length_fmap. by apply PlanFacts.guard_out_of_range.
  - simpl. unfold plan_of. simpl. f_equal. f_equal. apply imap_patched_steps.
Qed.

Lemma patched_twice (update : UpdatePlanResult) (j : nat) (s : PlanStep) :
  patched update j (patched update j s) = patched update j s.
Proof.
  unfold patched. destruct (num_eq (of_nat j) (index update)); [|done].
  simpl. by destruct (upd_description update), (upd_status update).
Qed.

Lemma imap_imap_steps (f g : nat -> PlanStep -> PlanStep) (l : list PlanStep) :
  imap f (imap g l) = imap (fun j s => f j (g j s)) l.
Proof.
  apply list_eq. intros j. rewrite !list_lookup_imap. by destruct (l !! j).
Qed.

(** X2.  Applying the same update twice leaves the store with the plan
    that applying it once leaves. *)
Theorem updateStep_twice (update : UpdatePlanResult) (σ : PlanState) :
  current (updateStep update (updateStep update σ)) = current (updateStep update σ).
Proof.
  rewrite !updateStep_maps_steps. destruct (current σ) as [p|]; [|done].
  simpl. f_equal. f_equal. rewrite imap_imap_steps.
  apply imap_ext. intros j s _. apply patched_twice.
Qed.

Lemma num_eq_same_position (j : nat) (a b : number) :
  num_eq (of_nat j) a = true -> num_eq (of_nat j) b = true -> num_eq a b = true.
Proof.
  destruct a as [| |p], b as [| |q]; try discriminate. simpl.
  intros Ha%Qeq_bool_iff Hb%Qeq_bool_iff. apply Qeq_bool_iff.
  by rewrite <- Ha, <- Hb.
Qed.

(** X3.  Two updates whose indices differ commute: the store ends with
    the same plan whichever is applied first. *)
Theorem updateStep_commutes (u1 u2 : UpdatePlanResult) (σ : PlanState) :
  num_eq (index u1) (index u2) = false ->
  current (updateStep u2 (updateStep u1 σ)) = current (updateStep u1 (updateStep u2 σ)).
Proof.
  intros Hne. rewrite !updateStep_maps_steps. destruct (current σ) as [p|]; [|done].
  simpl. f_equal. f_equal. rewrite !imap_imap_steps.
  apply imap_ext. intros j s _. unfold patched.
  destruct (num_eq (of_nat j) (index u1)) eqn:H1,
           (num_eq (of_nat j) (index u2)) eqn:H2; try done.
  rewrite (num_eq_same_position _ _ _ H1 H2) in Hne. discriminate.
Qed.

(** X4.  An update never adds, removes or reorders steps, and never
    clears the store: the store holds a plan after it exactly when it
    held one before, and that plan has as many steps. *)
Theorem updateStep_keeps_the_steps_in_place (update : UpdatePlanResult) (σ : PlanState) :
  (current σ = None -> current (updateStep update σ) = None) /\
  (forall p, current σ = Some p ->
     exists p', current (updateStep update σ) = Some p' /\
       length (steps p') = length (steps p) /\
       forall j s, steps p !! j = Some s ->
         exists s', steps p' !! j = Some s' /\
           (s' = s \/ num_eq (of_nat j) (index update) = true)).
Proof.
  rewrite updateStep_maps_steps. split; [by intros ->|].
  intros p ->. eexists. split; [reflexivity|]. cbn [steps].
  split; [apply length_imap|].
  intros j s Hj. rewrite list_lookup_imap, Hj.
  cbn [fmap option_fmap option_map]. eexists. split; [reflexivity|].
  unfold patched. destruct (num_eq (of_nat j) (index update)); auto.
Qed.

(** X5.  An update that carries no empty description keeps every
    description of the plan non-empty. *)
Theorem updateStep_keeps_descriptions_nonempty
    (update : UpdatePlanResult) (σ : PlanState) (p p' : Plan) :
  upd_description update <> Some "" ->
  current σ = Some p ->
  Forall (fun s => description s <> "") (steps p) ->
  current (updateStep update σ) = Some p' ->
  Forall (fun s => description s <> "") (steps p').
Proof.
  intros Hd Hp Hall. rewrite updateStep_maps_steps, Hp. simpl. intros [= <-]. simpl.
  apply Forall_lookup. intros j s'. rewrite list_lookup_imap.
  destruct (steps p !! j) as [s|] eqn:Hj; [|done]. simpl. intros [= <-].
  pose proof (Forall_lookup_1 _ _ _ _ Hall Hj) as Hs. unfold patched.
  destruct (num_eq (of_nat j) (index update)); [|done]. simpl.
  destruct (upd_description update) as [d|]; [|done]. simpl. congruence.
Qed.

Lemma fmap_step_imap (f : nat -> ref) (l : list PlanStep) :
  step <$> imap (fun i s => {| step_ref := f i; step := s |}) l = l.
Proof.
  apply list_eq. intros j. rewrite list_lookup_fmap, list_lookup_imap.
  by destruct (l !! j).
Qed.

(** [setPlan] replaces the plan of the store, whatever it held. *)
Lemma current_setPlan (p : option Plan) (σ : PlanState) : current (setPlan p σ) = p.
Proof.
  destruct p as [[l]|]; [|done]. unfold current, setPlan, plan_of. simpl.
  f_equal. f_equal. apply (fmap_step_imap (fun i => S (S (next_ref σ)) + i)).
Qed.

(** Witnesses on the three-step plan of the examples. *)
Lemma updateStep_commutes_on_three_steps :
  let σ := setPlan (Some {| steps := [ {| description := "a"; status := pending |};
                                       {| description := "b"; status := pending |};
                                       {| description := "c"; status := pending |} ] |})
                   initial in
  let u1 := {| index := of_nat 0; upd_description := None; upd_status := Some completed |} in
  let u2 := {| index := of_nat 2; upd_description := Some "z"; upd_status := None |} in
  num_eq (index u1) (index u2) = false /\
  current (updateStep u2 (updateStep u1 σ))
    = current (updateStep u1 (updateStep u2 σ)) /\
  current (updateStep u2 (updateStep u1 σ))
    = Some {| steps := [ {| description := "a"; status := completed |};
                         {| description := "b"; status := pending |};
                         {| description := "z"; status := pending |} ] |}.
Proof.
  intros σ u1 u2. split; [reflexivity|]. split.
  - apply updateStep_commutes. reflexivity.
  - reflexivity.
Defined.

Lemma updateStep_keeps_descriptions_on_three_steps :
  let p := {| steps := [ {| description := "a"; status := pending |};
                         {| description := "b"; status := pending |};
                         {| description := "c"; status := pending |} ] |} in
  let σ := setPlan (Some p) initial in
  let u := {| index := of_nat 1; upd_description := Some "x"; upd_status := None |} in
  upd_description u <> Some "" /\
  current σ = Some p /\
  Forall (fun s => description s <> "") (steps p) /\
  exists p', current (updateStep u σ) = Some p' /\
    Forall (fun s => description s <> "") (steps p').
Proof.
  intros p σ u.
  assert (upd_description u <> Some "") as Hd by discriminate.
  assert (Forall (fun s => description s <> "") (steps p)) as Hall
    by (repeat constructor; discriminate).
  split; [exact Hd|]. split; [reflexivity|]. split; [exact Hall|].
  eexists. split; [reflexivity|].
  exact (updateStep_keeps_descriptions_nonempty u σ p _ Hd eq_refl Hall eq_refl).
Defined.

End StoreFacts.

(** * Further properties of the normalizers and of the tool bindings *)

Module NormalizerFacts.
Import JS PlanUI PlanSpec StoreSpec.

Section Normalizers.
Context `{Host}.

Lemma asRecord_of_record (v r : value) :
  asRecord v = Normal (Some r) -> is_record r = true /\ asRecord r = Normal (Some r).
Proof.
  intros Hr. destruct (PlanFacts.asRecord_returns v) as [Hn | (r' & Hr' & Hrec)];
    [congruence|].
  assert (r' = r) as -> by congruence.
  split; [done|]. by apply PlanFacts.asRecord_record.
Qed.

(** X6.  [normalizeStep] accepts exactly the values that resolve to a
    record whose [description] is non-empty text; the step carries that
    text, and it is completed exactly when the [status] of the record is
    the text [completed], and pending for any other or no status. *)
Theorem normalizeStep_accepts_exactly (v : value) (st : PlanStep) :
  normalizeStep v = Normal (Some st) <->
  exists record s,
    asRecord v = Normal (Some record) /\
    get record "description" = Normal (VStr (description st)) /\
    description st <> "" /\
    get record "status" = Normal s /\
    status st = if is_string_lit s "completed" then completed else pending.
Proof.
  split.
  - intros Hst. unfold normalizeStep in Hst.
    destruct (PlanFacts.asRecord_returns v) as [Hn | (r & Hr & Hrec)];
      rewrite ?Hn, ?Hr in Hst; [discriminate|]. simpl in Hst.
    destruct (PlanFacts.get_record r "description" Hrec) as [d Hd].
    destruct (PlanFacts.get_record r "status" Hrec) as [s Hs].
    rewrite Hd, Hs in Hst. simpl in Hst.
    destruct d as [| | | |d| |]; try discriminate.
    destruct d as [|c d]; [discriminate|]. injection Hst as <-.
    exists r, s. simpl. by repeat split.
  - intros (record & s & Hr & Hd & Hne & Hs & Hst).
    destruct (PlanFacts.normalizeStep_accepts v record _ Hr Hd Hne) as (s' & Hs' & ->).
    assert (s' = s) as -> by congruence.
    destruct st as [d stat]. simpl in *. by rewrite Hst.
Qed.

Lemma surviving_steps_descriptions (l : list value) :
  Forall (fun st => description st <> "") (surviving_steps l).
Proof.
  apply Forall_forall. intros st. unfold surviving_steps.
  rewrite list_elem_of_omap. intros (e & _ & He).
  destruct (normalizeStep e) as [[st'|]|] eqn:Hst; try discriminate.
  injection He as ->. apply normalizeStep_accepts_exactly in Hst.
  by destruct Hst as (_ & _ & _ & _ & Hne & _).
Qed.

Lemma normalizePlan_returns_nonempty (v : value) :
  exists r, normalizePlan v = Normal r /\
    forall p, r = Some p ->
      steps p <> [] /\ Forall (fun st => description st <> "") (steps p).
Proof.
  destruct (PlanFacts.asRecord_returns v) as [Hn | (r & Hr & _)].
  { exists None. unfold normalizePlan. rewrite Hn. by split. }
  rewrite (PlanFacts.normalizePlan_record _ _ Hr). eexists. split; [reflexivity|].
  intros p Hp. destruct (get r "steps") as [[| | | | |l|]|]; try discriminate.
  pose proof (surviving_steps_descriptions l) as Hall.
  destruct (surviving_steps l) as [|st sts]; [discriminate|].
  injection Hp as <-. by split.
Qed.

(** X7.  [normalizeCreateResult] returns on every input and never throws,
    and a plan it returns has at least one step and no step with an empty
    description. *)
Theorem normalizeCreateResult_returns_a_proper_plan (v : value) :
  exists r, normalizeCreateResult v = Normal r /\
    forall p, r = Some p ->
      steps p <> [] /\ Forall (fun st => description st <> "") (steps p).
Proof.
  unfold normalizeCreateResult.
  destruct (PlanFacts.asRecord_returns v) as [-> | (r & -> & Hrec)].
  { exists None. by split. }
  simpl. destruct (PlanFacts.get_record r "plan" Hrec) as [x ->]. simpl.
  destruct (truthy x); apply normalizePlan_returns_nonempty.
Qed.

(** X8.  A plan handed over under a [plan] key and the same plan handed
    over bare normalize alike: when the wrapped value is truthy and
    resolves to a record that has no truthy [plan] of its own, the
    wrapper and the value give the same result, that of [normalizePlan]
    on the value. *)
Theorem normalizeCreateResult_wrapped_or_bare (w p r x : value) :
  is_record w = true ->
  get w "plan" = Normal p ->
  truthy p = true ->
  asRecord p = Normal (Some r) ->
  get r "plan" = Normal x ->
  truthy x = false ->
  normalizeCreateResult w = normalizePlan p /\
  normalizeCreateResult p = normalizePlan p.
Proof.
  intros Hw Hp Htp Hr Hx Htx. unfold normalizeCreateResult.
  rewrite (PlanFacts.asRecord_record _ Hw), Hr. simpl. rewrite Hp, Hx. simpl.
  rewrite Htp, Htx. split; [done|].
  destruct (asRecord_of_record _ _ Hr) as [_ Hrr].
  by rewrite (PlanFacts.normalizePlan_record _ _ Hr),
             (PlanFacts.normalizePlan_record _ _ Hrr).
Qed.

(** X9.  The create binding never throws.  When the result normalizes,
    the store holds exactly the normalized plan afterwards, whatever it
    held before; otherwise the state is the state it was. *)
Theorem create_plan_effect_replaces_or_keeps (result : value) (σ : PlanState) :
  exists σ',
    create_plan_effect result σ = Normal σ' /\
    ((exists p, normalizeCreateResult result = Normal (Some p) /\
                current σ' = Some p /\ steps p <> [])
     \/ (normalizeCreateResult result = Normal None /\ σ' = σ)).
Proof.
  unfold create_plan_effect.
  destruct (normalizeCreateResult_returns_a_proper_plan result) as ([p|] & -> & Hp).
  - eexists. split; [reflexivity|]. left. exists p.
    split; [done|]. split; [apply StoreFacts.current_setPlan|].
    by destruct (Hp p eq_refl).
  - exists σ. split; [reflexivity|]. by right.
Qed.

(** X10.  A tool result that is text which is no JSON, a number, a
    boolean, [null] or [undefined] changes nothing: both bindings return,
    with the very state they were given. *)
Theorem bindings_ignore_what_is_no_record (result : value) (σ : PlanState) :
  match result with
  | VStr s => exists e, JSON_parse s = Throw e
  | VArr _ | VObj _ => False
  | _ => True
  end ->
  create_plan_effect result σ = Normal σ /\
  update_plan_step_effect result σ = Normal σ.
Proof.
  intros Hresult.
  assert (asRecord result = Normal None) as Hn.
  { destruct result; try done. destruct Hresult as [e He].
    by apply (PlanFacts.asRecord_unparsable _ e). }
  unfold create_plan_effect, update_plan_step_effect,
    normalizeCreateResult, normalizeUpdateResult.
  by rewrite Hn.
Qed.

(** X11.  An update that [normalizeUpdateResult] returns has a finite
    index that is not negative. *)
Theorem normalizeUpdateResult_index_is_finite (v : value) (u : UpdatePlanResult) :
  normalizeUpdateResult v = Normal (Some u) ->
  isFinite (index u) = true /\ ~ negative (index u).
Proof.
  unfold normalizeUpdateResult.
  destruct (PlanFacts.asRecord_returns v) as [-> | (r & -> & Hrec)]; [discriminate|].
  simpl. destruct (PlanFacts.get_record r "index" Hrec) as [raw ->]. simpl.
  destruct (index_of raw) as [idx|e]; [|discriminate]. simpl.
  destruct (isFinite idx) eqn:Hfin; [|discriminate]. simpl.
  destruct (lt idx (of_nat 0)) eqn:Hlt; [discriminate|].
  destruct (PlanFacts.get_record r "description" Hrec) as [d ->].
  destruct (PlanFacts.get_record r "status" Hrec) as [s ->]. simpl.
  intros [= <-]. simpl. split; [done|].
  intros Hneg%PlanFacts.lt_zero_negative. congruence.
Qed.

End Normalizers.

(** Witnesses on the sample host. *)
Lemma wrapped_plan_of_one_step :
  let p := VObj [("steps", VArr [VObj [("description", VStr "a")]])] in
  let w := VObj [("plan", p)] in
  is_record w = true /\
  @normalizeCreateResult SampleHost.host w
    = Normal (Some {| steps := [ {| description := "a"; status := pending |} ] |}) /\
  @normalizeCreateResult SampleHost.host p = @normalizeCreateResult SampleHost.host w.
Proof.
  intros p w.
  destruct (@normalizeCreateResult_wrapped_or_bare SampleHost.host w p p VUndefined
              eq_refl eq_refl eq_refl eq_refl eq_refl eq_refl) as [Hw Hp].
  split; [reflexivity|]. split.
  - rewrite Hw. reflexivity.
  - by rewrite Hw, Hp.
Defined.

Lemma bindings_ignore_text_that_is_no_json :
  (exists e, @JSON_parse SampleHost.host "not json" = Throw e) /\
  @create_plan_effect SampleHost.host (VStr "not json") initial = Normal initial /\
  @update_plan_step_effect SampleHost.host (VStr "not json") initial = Normal initial.
Proof.
  assert (exists e, @JSON_parse SampleHost.host "not json" = Throw e) as Hthrow
    by (eexists; reflexivity).
  split; [exact Hthrow|].
  exact (@bindings_ignore_what_is_no_record SampleHost.host (VStr "not json") initial
           Hthrow).
Defined.

Lemma string_index_is_finite :
  let v := VObj [("index", VStr "2"); ("status", VStr "completed")] in
  let u := {| index := of_Z 2; upd_description := None; upd_status := Some completed |} in
  @normalizeUpdateResult SampleHost.host v = Normal (Some u) /\
  isFinite (index u) = true /\ ~ negative (index u).
Proof.
  intros v u. split; [reflexivity|].
  exact (@normalizeUpdateResult_index_is_finite SampleHost.host v u eq_refl).
Defined.

End NormalizerFacts.

(** * Properties of the table tool *)

Module EconFacts.
Import JS PlanSpec EconDataToolUI EconSpec.

Section Parse.
Context `{Host}.

Lemma row_test (row : value) : truthy row && typeof_object row = is_record row.
Proof. destruct row; simpl; by rewrite ?andb_false_r. Qed.

(** The loop of [parseResult] appends the rows that are objects. *)
Lemma parseResult_loop (rows acc : list value) :
  for_of (fun records row =>
            if truthy row && typeof_object row
            then Normal (records ++ [row])
            else Normal records) rows acc
  = Normal (acc ++ List.filter is_record rows).
Proof.
  revert acc. induction rows as [|row rows IH]; intros acc; simpl.
  - by rewrite app_nil_r.
  - rewrite row_test. destruct (is_record row); simpl; rewrite IH; [|done].
    by rewrite <- app_assoc.
Qed.

(** What [parseResult] makes of the data it has parsed or was given. *)
Lemma parseResult_data (data : value) :
  match data with
  | VArr rows =>
      records ← for_of
                  (fun records row =>
                     if truthy row && typeof_object row
                     then Normal (records ++ [row])
                     else Normal records)
                  rows [];
      if Nat.ltb 0 (length records) then Normal (Some records) else Normal None
  | _ => Normal None
  end
  = Normal (match data with
            | VArr rows =>
                match List.filter is_record rows with
                | [] => None
                | records => Some records
                end
            | _ => None
            end).
Proof.
  destruct data as [| | | | |rows|]; try done.
  rewrite parseResult_loop. simpl. by destruct (List.filter is_record rows).
Qed.

Lemma parseResult_closed_form (result : value) :
  parseResult result
  = Normal (match data_of result with
            | Some (VArr rows) =>
                match List.filter is_record rows with
                | [] => None
                | records => Some records
                end
            | _ => None
            end).
Proof.
  unfold parseResult, data_of.
  destruct result as [| |b|n|text|rows|props]; try done.
  - cbn [nullish]. cbv iota. destruct (JSON_parse text) as [parsed|e]; [|done].
    cbn [mbind completion_bind try_catch]. apply parseResult_data.
  - cbn [nullish mbind completion_bind]. cbv iota.
    apply (parseResult_data (VArr rows)).
Qed.

(** X12.  [parseResult] returns on every input and never throws.  It
    returns rows exactly when the result is an array, or text that
    denotes an array, with at least one row that is an object; the rows
    returned are then the rows that are objects, in the order of the
    array, every other row being dropped. *)
Theorem parseResult_keeps_the_object_rows :
  (forall result, exists r, parseResult result = Normal r) /\
  (forall result records,
     parseResult result = Normal (Some records) <->
     exists rows,
       data_of result = Some (VArr rows) /\
       records = List.filter is_record rows /\
       records <> []).
Proof.
  split.
  - intros result. rewrite parseResult_closed_form. eauto.
  - intros result records. rewrite parseResult_closed_form. split.
    + intros Hr. destruct (data_of result) as [[| | | | |rows|]|]; try discriminate.
      exists rows. split; [done|].
      destruct (List.filter is_record rows) as [|row rest]; [discriminate|].
      injection Hr as <-. by split.
    + intros (rows & -> & -> & Hne).
      by destruct (List.filter is_record rows).
Qed.

(** X13.  [parseResult] parses text once only: text that denotes a
    string is rejected, whatever that string holds, and so is a single
    record that is no array. *)
Theorem parseResult_parses_once :
  (forall s t, JSON_parse s = Normal (VStr t) -> parseResult (VStr s) = Normal None) /\
  (forall props, parseResult (VObj props) = Normal None).
Proof.
  split.
  - intros s t Hp. rewrite parseResult_closed_form. unfold data_of. by rewrite Hp.
  - intros props. by rewrite parseResult_closed_form.
Qed.

End Parse.

(** A table of two rows between two values that are no objects; the same
    table as text under two levels of JSON is rejected, where [asRecord]
    resolves such text. *)
Lemma parseResult_of_a_mixed_array :
  let row1 := VObj [("year", VNum (of_Z 2020))] in
  let row2 := VObj [("year", VNum (of_Z 2021))] in
  let result := VArr [VNull; row1; VStr "x"; row2] in
  (exists rows,
     @data_of SampleHost.host result = Some (VArr rows) /\
     [row1; row2] = List.filter is_record rows /\ [row1; row2] <> []) /\
  @parseResult SampleHost.host result = Normal (Some [row1; row2]).
Proof.
  intros row1 row2 result.
  assert (exists rows,
            @data_of SampleHost.host result = Some (VArr rows) /\
            [row1; row2] = List.filter is_record rows /\ [row1; row2] <> []) as Hrows.
  { eexists. split; [reflexivity|]. split; [reflexivity|discriminate]. }
  split; [exact Hrows|].
  exact (proj2 (proj2 (@parseResult_keeps_the_object_rows SampleHost.host)
                  result [row1; row2]) Hrows).
Defined.

Lemma parseResult_of_text_in_text :
  let text := SampleHost.quoted "[]" in
  @JSON_parse SampleHost.host text = Normal (VStr "[]") /\
  @parseResult SampleHost.host (VStr text) = Normal None.
Proof.
  intros text. split; [reflexivity|].
  exact (proj1 (@parseResult_parses_once SampleHost.host) text "[]" eq_refl).
Defined.

End EconFacts.

(** * Properties of the plan card *)

Module PlanCardFacts.
Import JS PlanUI PlanCardUI.

Lemma not_completed_is_pending (s : PlanStep) : negb (is_completed s) = is_pending s.
Proof. unfold is_completed, is_pending. by destruct (status s). Qed.

(** [findIndex] answers -1 when no element passes, and otherwise the
    position of the first one that does. *)
Lemma findIndex_from_spec {A} (f : A -> bool) (l : list A) (i : nat) :
  (findIndex_from f l i = (-1)%Z /\ Forall (fun x => f x = false) l)
  \/ exists k x,
       findIndex_from f l i = Z.of_nat (i + k) /\
       l !! k = Some x /\ f x = true /\
       forall j y, j < k -> l !! j = Some y -> f y = false.
Proof.
  revert i. induction l as [|x l IH]; intros i; simpl.
  - left. by split.
  - destruct (f x) eqn:Hx.
    + right. exists 0, x. split; [by rewrite Nat.add_0_r|].
      split; [done|]. split; [done|]. intros j y Hj. lia.
    + destruct (IH (S i)) as [[-> Hall] | (k & y & -> & Hk & Hy & Hbefore)].
      * left. split; [done|]. by constructor.
      * right. exists (S k), y. split; [f_equal; lia|].
        split; [done|]. split; [done|].
        intros [|j] z Hj Hz; simpl in Hz; [congruence|].
        apply (Hbefore j); [lia|done].
Qed.

Lemma forallb_false_exists {A} (f : A -> bool) (l : list A) :
  forallb f l = false -> ~ Forall (fun x => negb (f x) = false) l.
Proof.
  intros Hf Hall. apply not_true_iff_false in Hf. apply Hf.
  apply forallb_forall. intros x Hx%list_elem_of_In.
  rewrite Forall_forall in Hall. apply Hall in Hx. by destruct (f x).
Qed.

Lemma filter_all {A} (f : A -> bool) (l : list A) :
  (forall x, f x = true) -> List.filter f l = l.
Proof. intros Hf. induction l as [|x l IH]; simpl; [done|]. by rewrite Hf, IH. Qed.

Lemma completed_count_below (l : list PlanStep) :
  forallb is_completed l = false ->
  length (List.filter is_completed l) < length l.
Proof.
  induction l as [|x l IH]; simpl; [discriminate|].
  destruct (is_completed x); simpl.
  - intros Hl. apply IH in Hl. lia.
  - intros _. pose proof (List.filter_length_le is_completed l). lia.
Qed.

(** The card of a plan that has steps, not all of them completed. *)
Lemma PlanCard_in_progress (p : Plan) (emphasizeCurrent showCompleted : bool) :
  steps p <> [] -> forallb is_completed (steps p) = false ->
  PlanCard (Some p) emphasizeCurrent showCompleted =
    Progress (length (List.filter is_completed (steps p))) (length (steps p))
      (imap (fun index step =>
               {| number := index + 1;
                  item_step := step;
                  isCompleted := is_completed step;
                  isCurrent :=
                    emphasizeCurrent
                    && Z.eqb (Z.of_nat index)
                         (if emphasizeCurrent then findIndex is_pending (steps p)
                          else (-1)%Z) |})
            (List.filter (fun step => showCompleted || negb (is_completed step))
                         (steps p))).
Proof.
  intros Hne Hall. unfold PlanCard. rewrite Hall.
  destruct (steps p) as [|s l]; [done|]. reflexivity.
Qed.

(** X14.  Which card is shown: the waiting card exactly for no plan or a
    plan without steps, the card of a finished plan exactly when there
    are steps and all are completed, and otherwise the progress card,
    whose counts are the number of completed steps and the number of
    steps, the first below the second. *)
Theorem PlanCard_layouts (plan : option Plan) (emphasizeCurrent showCompleted : bool) :
  (PlanCard plan emphasizeCurrent showCompleted = Waiting <->
     plan = None \/ exists p, plan = Some p /\ steps p = []) /\
  ((exists listed, PlanCard plan emphasizeCurrent showCompleted = Complete listed) <->
     exists p, plan = Some p /\ steps p <> [] /\
               Forall (fun s => status s = completed) (steps p)) /\
  (forall c n items,
     PlanCard plan emphasizeCurrent showCompleted = Progress c n items ->
     exists p, plan = Some p /\
       n = length (steps p) /\
       c = length (List.filter is_completed (steps p)) /\
       c < n).
Proof.
  assert (forall l, forallb is_completed l = true <->
                    Forall (fun s => status s = completed) l) as Hforall.
  { intros l. rewrite forallb_forall, Forall_forall. unfold is_completed.
    split; intros Hl s Hs; [apply list_elem_of_In, Hl in Hs | apply list_elem_of_In, Hl in Hs];
      by destruct (status s). }
  destruct plan as [p|]; simpl.
  2:{ split; [split; auto|]. split; [|discriminate].
      split; [by intros [? ?] | by intros (? & ? & _)]. }
  destruct (steps p) as [|s l] eqn:Hsteps.
  { simpl. split; [split; eauto|]. split; [|discriminate].
    split; [by intros [? ?]|]. intros (p' & [= <-] & Hne & _). congruence. }
  change (Nat.eqb (length (s :: l)) 0) with false. cbv iota.
  destruct (forallb is_completed (s :: l)) eqn:Hall.
  - split; [split; [discriminate|]|].
    { intros [? | (p' & [= <-] & ?)]; congruence. }
    split; [|discriminate]. split; [|eauto].
    intros _. exists p. rewrite Hsteps. split; [done|]. split; [done|].
    by apply Hforall.
  - split; [split; [discriminate|]|].
    { intros [? | (p' & [= <-] & ?)]; congruence. }
    split.
    + split; [by intros [? ?]|]. intros (p' & [= <-] & _ & Hdone).
      rewrite Hsteps in Hdone. apply Hforall in Hdone. congruence.
    + intros c n items [= <- <- _]. exists p. rewrite Hsteps.
      split; [done|]. split; [done|]. split; [done|].
      exact (completed_count_below (s :: l) Hall).
Qed.

Lemma PlanCard_progress_inv (p : Plan) (e s : bool) (c n : nat) (items : list Item) :
  PlanCard (Some p) e s = Progress c n items ->
  steps p <> [] /\ forallb is_completed (steps p) = false.
Proof.
  unfold PlanCard. destruct (steps p) as [|x l]; [discriminate|].
  change (Nat.eqb (length (x :: l)) 0) with false. cbv iota.
  destruct (forallb is_completed (x :: l)); [discriminate|]. by intros _.
Qed.

Lemma findIndex_found (l : list PlanStep) :
  forallb is_completed l = false ->
  exists k s,
    findIndex is_pending l = Z.of_nat k /\
    l !! k = Some s /\ status s = pending /\
    forall j y, j < k -> l !! j = Some y -> status y = completed.
Proof.
  intros Hall. unfold findIndex.
  destruct (findIndex_from_spec is_pending l 0)
    as [[_ Hnone] | (k & s & Hk & Hs & Hp & Hbefore)].
  - exfalso. apply (forallb_false_exists _ _ Hall).
    eapply Forall_impl; [exact Hnone|]. intros x Hx.
    by rewrite not_completed_is_pending.
  - exists k, s. split; [done|]. split; [done|]. split.
    + unfold is_pending in Hp. by destruct (status s).
    + intros j y Hj Hy. specialize (Hbefore j y Hj Hy).
      unfold is_pending in Hbefore. by destruct (status y).
Qed.

(** X15.  With every step listed, the progress card lists the steps of
    the plan in order, numbered from one, and marks as current exactly
    one of them: the first pending step, all steps before it being
    completed. *)
Theorem PlanCard_marks_the_first_pending_step
    (p : Plan) (c n : nat) (items : list Item) :
  PlanCard (Some p) true true = Progress c n items ->
  item_step <$> items = steps p /\
  exists k s,
    steps p !! k = Some s /\ status s = pending /\
    (forall j y, j < k -> steps p !! j = Some y -> status y = completed) /\
    forall j it, items !! j = Some it ->
      number it = j + 1 /\
      (isCompleted it = true <-> status (item_step it) = completed) /\
      (isCurrent it = true <-> j = k).
Proof.
  intros Hcard. destruct (PlanCard_progress_inv _ _ _ _ _ _ Hcard) as [Hne Hall].
  rewrite (PlanCard_in_progress _ _ _ Hne Hall) in Hcard.
  injection Hcard as _ _ <-.
  rewrite (filter_all _ (steps p)) by done.
  destruct (findIndex_found _ Hall) as (k & s & Hk & Hs & Hpending & Hbefore).
  split.
  - apply list_eq. intros j. rewrite list_lookup_fmap, list_lookup_imap.
    by destruct (steps p !! j).
  - exists k, s. split; [done|]. split; [done|]. split; [done|].
    intros j it. rewrite list_lookup_imap.
    destruct (steps p !! j) as [y|]; [|done].
    cbn [fmap option_fmap option_map]. intros [= <-]. cbn.
    split; [done|]. split.
    + unfold is_completed. destruct (status y); split; congruence.
    + rewrite Hk, Z.eqb_eq. lia.
Qed.

Lemma filter_hidden (l : list PlanStep) :
  List.filter (fun step => false || negb (is_completed step)) l
  = List.filter is_pending l.
Proof. apply List.filter_ext. intros s. apply not_completed_is_pending. Qed.

Lemma findIndex_zero (l : list PlanStep) :
  findIndex is_pending l = 0%Z <-> exists s, l !! 0 = Some s /\ status s = pending.
Proof.
  unfold findIndex. destruct l as [|x l]; simpl.
  { split; [discriminate | by intros (s & ? & _)]. }
  unfold is_pending at 1. destruct (status x) eqn:Hx.
  - split; [eauto|done].
  - split.
    + intros Hl. destruct (findIndex_from_spec is_pending l 1)
        as [[Hm _] | (k & y & Hk & _)]; rewrite Hl in *; [discriminate|lia].
    + intros (s & [= <-] & Hs). congruence.
Qed.

(** X16.  With the completed steps hidden, the progress card lists the
    pending steps in order and numbers them afresh from one.  The mark
    of the current step still compares the position in this shorter list
    with the position of the first pending step in the whole plan: the
    first listed step, which is the first pending one, is marked exactly
    when the plan starts with a pending step. *)
Theorem PlanCard_hidden_completed_marks_by_old_position
    (p : Plan) (c n : nat) (items : list Item) :
  PlanCard (Some p) true false = Progress c n items ->
  item_step <$> items = List.filter is_pending (steps p) /\
  (forall j it, items !! j = Some it ->
     number it = j + 1 /\
     isCompleted it = false /\
     (isCurrent it = true <-> Z.of_nat j = findIndex is_pending (steps p))) /\
  (exists it, items !! 0 = Some it /\
     (isCurrent it = true <-> exists s, steps p !! 0 = Some s /\ status s = pending)).
Proof.
  intros Hcard. destruct (PlanCard_progress_inv _ _ _ _ _ _ Hcard) as [Hne Hall].
  rewrite (PlanCard_in_progress _ _ _ Hne Hall) in Hcard.
  injection Hcard as _ _ <-. rewrite filter_hidden.
  assert (forall j it,
            imap (fun index step =>
                    {| number := index + 1; item_step := step;
                       isCompleted := is_completed step;
                       isCurrent := true && Z.eqb (Z.of_nat index)
                                              (findIndex is_pending (steps p)) |})
                 (List.filter is_pending (steps p)) !! j = Some it ->
            number it = j + 1 /\ isCompleted it = false /\
            (isCurrent it = true <-> Z.of_nat j = findIndex is_pending (steps p)))
    as Hitems.
  { intros j it. rewrite list_lookup_imap.
    destruct (List.filter is_pending (steps p) !! j) as [y|] eqn:Hy; [|done].
    cbn [fmap option_fmap option_map]. intros [= <-]. cbn.
    split; [done|]. split; [|apply Z.eqb_eq].
    apply list_elem_of_lookup_2, list_elem_of_In, List.filter_In in Hy as [_ Hy].
    rewrite <- not_completed_is_pending in Hy. by apply negb_true_iff. }
  split; [|split; [exact Hitems|]].
  - apply list_eq. intros j. rewrite list_lookup_fmap, list_lookup_imap.
    by destruct (List.filter is_pending (steps p) !! j).
  - destruct (findIndex_found _ Hall) as (k & s & _ & Hs & Hpending & _).
    assert (In s (List.filter is_pending (steps p))) as Hin.
    { apply List.filter_In. split.
      - by apply list_elem_of_lookup_2, list_elem_of_In in Hs.
      - unfold is_pending. by rewrite Hpending. }
    destruct (List.filter is_pending (steps p)) as [|y rest] eqn:Hf; [done|].
    eexists. split; [reflexivity|]. cbn.
    rewrite Z.eqb_eq. rewrite <- findIndex_zero.
    split; intros Hz; symmetry; exact Hz.
Qed.

(** A plan whose first step is completed: with every step listed the
    mark is on [b], the first pending step; with the completed step
    hidden it is on [c]. *)
Lemma PlanCard_of_a_started_plan :
  let p := {| steps := [ {| description := "a"; status := completed |};
                         {| description := "b"; status := pending |};
                         {| description := "c"; status := pending |} ] |} in
  (exists c n items,
     PlanCard (Some p) true true = Progress c n items /\
     isCurrent <$> items = [false; true; false]) /\
  (exists c n items,
     PlanCard (Some p) true false = Progress c n items /\
     item_step <$> items = [ {| description := "b"; status := pending |};
                             {| description := "c"; status := pending |} ] /\
     isCurrent <$> items = [false; true]).
Proof.
  intros p. split.
  - eexists _, _, _. split; [reflexivity|]. reflexivity.
  - eexists _, _, _. split; [reflexivity|].
    split; [|reflexivity].
    exact (proj1 (PlanCard_hidden_completed_marks_by_old_position p _ _ _ eq_refl)).
Defined.

Lemma PlanCard_first_pending_of_a_started_plan :
  let p := {| steps := [ {| description := "a"; status := completed |};
                         {| description := "b"; status := pending |};
                         {| description := "c"; status := pending |} ] |} in
  exists c n items,
    PlanCard (Some p) true true = Progress c n items /\
    item_step <$> items = steps p.
Proof.
  intros p. eexists _, _, _. split; [reflexivity|].
  exact (proj1 (PlanCard_marks_the_first_pending_step p _ _ _ eq_refl)).
Defined.

(** X17.  A plan that [normalizeCreateResult] returns never shows as
    the waiting card, and the create tool shows its card as soon as the
    result normalizes, before the store holds it. *)
Theorem normalized_plan_is_shown `{Host} (result : value) (p : Plan)
    (emphasizeCurrent showCompleted running : bool) :
  normalizeCreateResult result = Normal (Some p) ->
  PlanCard (Some p) emphasizeCurrent showCompleted <> Waiting /\
  CreatePlanToolUI_render None (Some p) running showCompleted
    = ShowCard (PlanCard (Some p) true showCompleted).
Proof.
  intros Hp. split; [|reflexivity].
  destruct (NormalizerFacts.normalizeCreateResult_returns_a_proper_plan result)
    as (r & Hr & Hproper).
  assert (r = Some p) as -> by congruence.
  destruct (Hproper p eq_refl) as [Hne _].
  unfold PlanCard. destruct (steps p) as [|s l]; [done|].
  change (Nat.eqb (length (s :: l)) 0) with false. cbv iota.
  by destruct (forallb is_completed (s :: l)).
Qed.

Lemma normalized_plan_of_one_step_is_shown :
  let result := VObj [("plan", VObj [("steps", VArr [VObj [("description", VStr "a")]])])] in
  let p := {| steps := [ {| description := "a"; status := pending |} ] |} in
  @normalizeCreateResult SampleHost.host result = Normal (Some p) /\
  PlanCard (Some p) true true <> Waiting.
Proof.
  intros result p. split; [reflexivity|].
  exact (proj1 (@normalized_plan_is_shown SampleHost.host result p true true true
                  eq_refl)).
Defined.

End PlanCardFacts.

(** * Further properties of the request adapter *)

Module AdapterMore.
Import JS DataStreamAdapter AdapterSpec OutputSpec.

Section Interceptor.
Context `{Host}.

(** X18.  A call that is no POST, a call to another address, and a POST
    whose body is form data go to the original function with the very
    [init] they came with: no body is rewritten, no header is added. *)
Theorem intercept_passes_other_calls_through
    (apiEndpoint : string) (headers : gmap string string)
    (systemMessage : option string) (input : Fetch.Input) (init : Fetch.Init) :
  Fetch.method init <> Some "POST"
  \/ includes apiEndpoint (url_of input) = false
  \/ Fetch.body init = Some Fetch.BodyFormData ->
  intercept apiEndpoint headers systemMessage input (Some init) = Some init.
Proof.
  intros Hcase. unfold intercept.
  destruct (bool_decide (Fetch.method init = Some "POST")) eqn:Hpost; [|done].
  apply bool_decide_eq_true in Hpost.
  destruct (includes apiEndpoint (url_of input)) eqn:Hurl; [|done].
  destruct Hcase as [Hm | [Hu | Hbody]]; [done|done|].
  cbn [andb]. unfold try_block. by rewrite Hbody.
Qed.

(** X19.  When a matching POST has a body that does not parse, or that
    parses to something the transform throws on, the call still goes out:
    with its method and its body as they were, and with the header record
    a rewritten call gets.  That record merges the default content type,
    over it the configured headers, over them the own properties of the
    call's headers: its headers when they are a plain record, nothing
    when they are a [Headers] object, the pairs under their positions
    when they are an array of pairs. *)
Theorem intercept_falls_back_to_the_original_body
    (apiEndpoint : string) (headers : gmap string string)
    (systemMessage : option string) (input : Fetch.Input) (init : Fetch.Init) :
  Fetch.method init = Some "POST" ->
  includes apiEndpoint (url_of input) = true ->
  (exists e, original_body (Fetch.body init) = Throw e)
  \/ (exists originalBody e,
        original_body (Fetch.body init) = Normal (Some originalBody) /\
        transformRequestToBackendFormat originalBody systemMessage = Throw e) ->
  exists merged,
    intercept apiEndpoint headers systemMessage input (Some init)
      = Some {| Fetch.method := Fetch.method init;
                Fetch.body := Fetch.body init;
                Fetch.headers := Some (Fetch.HeadersRecord merged) |} /\
    (forall k,
       merged !! k =
         match own_properties (Fetch.headers init) !! k with
         | Some v => Some v
         | None =>
             match headers !! k with
             | Some v => Some (Fetch.Text v)
             | None =>
                 if decide (k = "Content-Type")
                 then Some (Fetch.Text "application/json") else None
             end
         end) /\
    match Fetch.headers init with
    | Some (Fetch.HeadersRecord props) => own_properties (Fetch.headers init) = props
    | Some (Fetch.HeadersArray pairs) =>
        forall k v,
          own_properties (Fetch.headers init) !! k = Some v <->
          exists i pair, pairs !! i = Some pair /\ k = pretty i /\ v = Fetch.Pair pair
    | Some (Fetch.HeadersObject _) | None => own_properties (Fetch.headers init) = ∅
    end.
Proof.
  intros Hpost Hurl Hfail. exists (merged_headers headers init).
  split; [|split].
  - unfold intercept.
    rewrite bool_decide_eq_true_2 by done. rewrite Hurl. cbn [andb].
    unfold try_block.
    destruct Hfail as [[e ->] | (originalBody & e & -> & Ht)]; [done|].
    cbn [mbind completion_bind]. by rewrite Ht.
  - apply AdapterFacts.merged_headers_lookup.
  - apply AdapterFacts.own_properties_by_form.
Qed.

End Interceptor.

Section Again.
Context `{Host}.

Lemma or_else_twice (a b : value) : or_else (or_else a b) b = or_else a b.
Proof.
  unfold or_else. destruct (truthy a) eqn:Ha; [by rewrite Ha|].
  by destruct (truthy b).
Qed.

Lemma rewritten_part_twice (part : value) :
  rewritten_part (rewritten_part part) = rewritten_part part.
Proof.
  unfold rewritten_part. destruct (text_typed part) eqn:Ht; [|by rewrite Ht].
  cbn. by rewrite or_else_twice.
Qed.

Lemma rewritten_part_ok (part : value) :
  part_ok part = true -> part_ok (rewritten_part part) = true.
Proof.
  intros Hok. unfold rewritten_part. destruct (text_typed part) eqn:Ht; [|done].
  unfold part_ok in Hok. rewrite Ht in Hok.
  apply andb_true_iff in Hok as [_ Hok]. cbn in Hok. cbn.
  destruct (field part "text") as [| | | |t| |]; try discriminate; [done|].
  by destruct t.
Qed.

Lemma expected_messages_settled (msgs : list value) :
  Forall (fun msg => message_ok msg = true) msgs ->
  Forall settled (expected_messages msgs).
Proof.
  intros Hok. unfold expected_messages. apply Forall_fmap, Forall_forall.
  intros msg [Hkept Hin]%list_elem_of_filter.
  rewrite Forall_forall in Hok. apply Hok in Hin as Hmsg.
  unfold message_ok in Hmsg. apply andb_true_iff in Hmsg as [_ Hcontent].
  split; [exact Hkept|]. cbn. unfold parts_of. split.
  - destruct (field msg "content") as [| | | | |parts|]; try by constructor.
    apply AdapterFacts.forallb_all in Hcontent. apply Forall_fmap.
    eapply Forall_impl; [exact Hcontent|]. intros part. apply rewritten_part_ok.
  - rewrite <- list_fmap_compose. apply list_fmap_ext. intros _ part _. cbn.
    apply rewritten_part_twice.
Qed.

Lemma message_value_ok (m : BackendMessage) :
  settled m -> message_ok (message_value m) = true.
Proof.
  intros (_ & Hparts & _). unfold message_ok, message_value. cbn.
  apply forallb_forall. intros part Hin%list_elem_of_In.
  rewrite Forall_forall in Hparts. by apply Hparts.
Qed.

Lemma settled_messages_again (ms : list BackendMessage) :
  Forall settled ms ->
  expected_messages (message_value <$> ms) = ms /\
  system_texts (message_value <$> ms) = [].
Proof.
  induction 1 as [|m ms Hm _ [IHm IHs]]; [done|].
  rewrite fmap_cons, AdapterFacts.expected_messages_cons, AdapterFacts.system_texts_cons.
  destruct Hm as (Hrole & _ & Hcontent).
  assert (has_role "user" (message_value m) || has_role "assistant" (message_value m)
          = true) as -> by exact Hrole.
  assert (has_role "system" (message_value m) = false) as ->.
  { unfold has_role, message_value. cbn.
    destruct (role m) as [| | | |r| |]; try done. cbn in Hrole.
    apply orb_true_iff in Hrole as [->%String.eqb_eq | ->%String.eqb_eq]; done. }
  cbn [andb]. split; [|exact IHs]. rewrite IHm. f_equal.
  unfold expected_message, parts_of, message_value. cbn. rewrite Hcontent.
  by destruct m.
Qed.

Lemma or_else_truthy (a b : value) : truthy b = true -> truthy (or_else a b) = true.
Proof. intros Hb. unfold or_else. by destruct (truthy a) eqn:Ha. Qed.

Lemma expected_tools_parameters (tools : value) :
  Forall (fun t => truthy (parameters t) = true) (expected_tools tools).
Proof.
  destruct tools as [| | | | |l|props]; try by constructor.
  - apply Forall_fmap, Forall_forall. intros tool _. by apply or_else_truthy.
  - apply Forall_fmap, Forall_forall. intros entry _. by apply or_else_truthy.
Qed.

Lemma tools_again (ts : list BackendTool) :
  Forall (fun t => truthy (parameters t) = true) ts ->
  Forall (fun t => truthy (name t) = true) ts ->
  tool_of_entry <$> (tool_value <$> ts) = ts.
Proof.
  intros Hp Hn. rewrite <- list_fmap_compose.
  rewrite <- (list_fmap_id ts) at 2. apply Forall_fmap_ext.
  rewrite Forall_forall in Hp, Hn. apply Forall_forall. intros t Ht.
  unfold tool_of_entry, tool_value, or_else. cbn.
  rewrite (Hp t Ht), (Hn t Ht). by destruct t.
Qed.

(** X20.  The transform applied to its own output, taken as a request,
    returns; it keeps the messages, and it keeps the tools when every
    tool has a truthy name.  It does not keep the system text: the new
    one is the override of the second call, or empty. *)
Theorem transform_of_its_own_output
    (request : value) (systemMessage again : option string) (out : BackendChatRequest) :
  request_ok request = true ->
  transformRequestToBackendFormat request systemMessage = Normal out ->
  exists out',
    transformRequestToBackendFormat (request_value out) again = Normal out' /\
    messages out' = messages out /\
    system out' = default "" again /\
    (Forall (fun t => truthy (name t) = true) (tools out) -> tools out' = tools out).
Proof.
  intros Hok Hout. rewrite (AdapterFacts.transform_ok _ _ Hok) in Hout.
  injection Hout as <-.
  assert (Forall (fun msg => message_ok msg = true) (messages_of request)) as Hmsgs.
  { unfold request_ok in Hok.
    apply andb_true_iff in Hok as [[_ Hm]%andb_true_iff _]. unfold messages_of.
    destruct (field request "messages") as [| | | | |l|]; try by constructor.
    by apply AdapterFacts.forallb_all. }
  pose proof (expected_messages_settled _ Hmsgs) as Hsettled.
  destruct (settled_messages_again _ Hsettled) as [Hagain Hnosystem].
  set (ms := expected_messages (messages_of request)) in *.
  set (ts := expected_tools (field request "tools")).
  set (out := {| system := expected_system (messages_of request) systemMessage;
                 tools := ts; messages := ms |}).
  assert (request_ok (request_value out) = true) as Hok'.
  { unfold request_ok, request_value. cbn. apply andb_true_iff. split.
    - apply forallb_forall. intros v [m [-> Hm]]%list_elem_of_In%list_elem_of_fmap.
      apply message_value_ok. rewrite Forall_forall in Hsettled. by apply Hsettled.
    - apply forallb_forall. by intros v [t [-> _]]%list_elem_of_In%list_elem_of_fmap. }
  eexists. split; [by apply AdapterFacts.transform_ok|].
  change (messages_of (request_value out)) with (message_value <$> ms).
  change (field (request_value out) "tools") with (VArr (tool_value <$> ts)).
  cbn [messages system tools]. unfold expected_system. rewrite Hagain, Hnosystem.
  split; [done|]. split; [done|].
  intros Hnames. cbn [expected_tools]. apply tools_again; [apply expected_tools_parameters | exact Hnames].
Qed.

End Again.

Lemma interceptor_is_not_its_original (f : FetchFn) (id : nat) (apiEndpoint : string)
    (headers : gmap string string) (systemMessage : option string) :
  Interceptor id apiEndpoint headers systemMessage f <> f.
Proof.
  revert id apiEndpoint headers systemMessage.
  induction f as [n | id' e' h' s' f IH]; intros id e h s; [discriminate|].
  intros [= _ _ _ _ Hf]. by apply (IH id' e' h' s').
Qed.

(** X21.  Two interceptors installed one after the other: cleaning up in
    the reverse order gives the window its first function back, while
    cleaning up in the order of installation leaves the first
    interceptor, a function other than the first one, in the window. *)
Theorem cleanups_in_install_order_leave_an_interceptor
    (endpointA endpointB : string) (headersA headersB : option (gmap string string))
    (systemA systemB : option string) (w : Window) :
  let A := createFetchInterceptor endpointA headersA systemA w in
  let B := createFetchInterceptor endpointB headersB systemB A.1 in
  fetch (A.2 (B.2 B.1)) = fetch w /\
  fetch (B.2 (A.2 B.1)) = fetch A.1 /\
  fetch (B.2 (A.2 B.1)) <> fetch w.
Proof.
  simpl. split; [done|]. split; [done|]. apply interceptor_is_not_its_original.
Qed.

(** Witnesses on the sample host. *)
Lemma get_request_passes_through :
  let init := {| Fetch.method := Some "GET"; Fetch.body := None;
                 Fetch.headers :=
                   Some (Fetch.HeadersRecord {[ "Accept" := Fetch.Text "text/plain" ]}) |} in
  Fetch.method init <> Some "POST" /\
  @intercept SampleHost.host "/api/chat" {[ "Authorization" := "Bearer t" ]} None
    (Fetch.InputString "/api/chat") (Some init) = Some init.
Proof.
  intros init. assert (Fetch.method init <> Some "POST") as Hm by discriminate.
  split; [exact Hm|].
  exact (@intercept_passes_other_calls_through SampleHost.host "/api/chat"
           {[ "Authorization" := "Bearer t" ]} None (Fetch.InputString "/api/chat")
           init (or_introl Hm)).
Defined.

(** A body that is no JSON, in a call whose headers are a [Headers]
    object: the body goes out as it is, the authorization of the call
    does not. *)
Lemma body_that_is_no_json_goes_out :
  let init := {| Fetch.method := Some "POST";
                 Fetch.body := Some (Fetch.BodyText "not json");
                 Fetch.headers :=
                   Some (Fetch.HeadersObject [("Authorization", "Bearer call")]) |} in
  Fetch.method init = Some "POST" /\
  includes "/api/chat" (url_of (Fetch.InputString "/api/chat")) = true /\
  (exists e, @original_body SampleHost.host (Fetch.body init) = Throw e) /\
  exists merged,
    @intercept SampleHost.host "/api/chat" ∅ None (Fetch.InputString "/api/chat")
      (Some init)
    = Some {| Fetch.method := Some "POST";
              Fetch.body := Some (Fetch.BodyText "not json");
              Fetch.headers := Some (Fetch.HeadersRecord merged) |} /\
    merged !! "Content-Type" = Some (Fetch.Text "application/json") /\
    merged !! "Authorization" = None.
Proof.
  intros init.
  assert (exists e, @original_body SampleHost.host (Fetch.body init) = Throw e) as Hfail
    by (eexists; reflexivity).
  split; [reflexivity|]. split; [reflexivity|]. split; [exact Hfail|].
  destruct (@intercept_falls_back_to_the_original_body SampleHost.host "/api/chat" ∅ None
              (Fetch.InputString "/api/chat") init eq_refl eq_refl (or_introl Hfail))
    as (merged & Hcall & Hmerged & _).
  exists merged. split; [exact Hcall|]. split.
  - rewrite Hmerged. vm_compute. reflexivity.
  - rewrite Hmerged. vm_compute. reflexivity.
Defined.

Lemma transform_of_a_transformed_request :
  let request :=
    VObj [("messages",
           VArr [VObj [("role", VStr "system");
                       ("content", VArr [VObj [("type", VStr "text"); ("text", VStr "A")]])];
                 VObj [("role", VStr "user");
                       ("content", VArr [VObj [("type", VStr "text");
                                               ("text", VStr "hi")]])]]);
          ("tools", VObj [("search", VObj [("description", VStr "d")])])] in
  request_ok request = true /\
  exists out out',
    @transformRequestToBackendFormat SampleHost.host request None = Normal out /\
    system out = "A" /\
    @transformRequestToBackendFormat SampleHost.host (request_value out) None
      = Normal out' /\
    messages out' = messages out /\
    tools out' = tools out /\
    system out' = "".
Proof.
  intros request. split; [reflexivity|].
  eexists. 
  destruct (@transform_of_its_own_output SampleHost.host request None None _
              eq_refl eq_refl) as (out' & Hout' & Hm & Hs & Ht).
  exists out'. split; [reflexivity|]. split; [reflexivity|].
  split; [exact Hout'|]. split; [exact Hm|]. split; [|exact Hs].
  apply Ht. repeat constructor.
Defined.

End AdapterMore.
